(** * Author backend: the streaming session coordinator

    A shallow embedding of
      - [backend/services/agent_service.py]  (class [AgentService]),
      - [backend/prompts/prompt_templates.py] (mode tables and helpers),
      - [backend/models/model_config.py]     ([get_default_model]),
      - [backend/main.py]                    ([websocket_endpoint]),
    followed by the properties of the event stream and of the
    session commands.

    Conventions.  A Python [str] is a [string]; a dict whose keys may be
    missing is a record of [option] fields; a dict whose key order is
    observable (the [files] state) is an association list; a raised
    exception is a value of [Exn] returned next to the state the object
    is left in.  The reasoning agent, its [astream] iterator and
    [async_create_deep_agent] are external: they are taken as inputs. *)

From Stdlib Require Import String Ascii List Bool Arith Lia.
From Stdlib Require Import ZArith DecimalString.
Import ListNotations.
Local Open Scope string_scope.
Local Open Scope list_scope.

(* ================================================================= *)
(** ** Python values used by the service *)

(** Exceptions: the class decides which [except] clause of [main.py]
    catches it, the text is [str(e)]. *)
Inductive ExnClass := ValueError | IndexError | RuntimeError | OtherError.

Record Exn := mkExn { exn_class : ExnClass; exn_str : string }.

(** The value stored under a tool call's ['id'] key: [None] or a str. *)
Inductive PyId := IdNone | IdStr (s : string).

Definition PyId_eqb (a b : PyId) : bool :=
  match a, b with
  | IdNone, IdNone => true
  | IdStr s, IdStr t => String.eqb s t
  | _, _ => false
  end.

(** [AIMessage.content] is a str or a list of content blocks. *)
Inductive Content := Text (s : string) | Blocks.

(** A tool call is a dict; every key may be absent.  [args] is an
    opaque JSON object, kept as its text. *)
Record ToolCall := mkToolCall {
  tc_id   : option PyId;
  tc_name : option string;
  tc_args : option string
}.

(** Messages of the agent state.  [OtherMessage] stands for the
    classes that are neither [AIMessage] nor of type ['tool']
    (human and system messages). *)
Inductive Message :=
| AIMessage (content : Content) (tool_calls : list ToolCall)
| ToolMessage (tool_call_id : string) (content : Content)
| OtherMessage (content : Content).

(** A todo entry is compared by value and forwarded untouched. *)
Record ToDo := mkToDo { todo_content : string; todo_status : string }.

Definition ToDo_eqb (a b : ToDo) : bool :=
  String.eqb (todo_content a) (todo_content b)
  && String.eqb (todo_status a) (todo_status b).

(** One value of [agent.astream(..., stream_mode="values")]: a dict with
    optional keys ["messages"], ["todos"], ["files"], each of the type
    the agent state declares for it.  [files] maps a file name to its
    text, in insertion order. *)
Record Chunk := mkChunk {
  messages : option (list Message);
  todos    : option (list ToDo);
  files    : option (list (string * string))
}.

(** The async iterator returned by [astream]: the chunks it yields, and
    whether it then stops or raises.  A failure is an instance of
    [Exception], the class the generator catches; cancellation of the
    task is outside this model.  Chunks are values: a snapshot is not
    mutated after it was yielded. *)
Record Source := mkSource {
  snapshots : list Chunk;
  failure   : option Exn
}.

(** Outbound frames (dicts tagged by ["type"]). *)
Inductive Event :=
| StreamStart
| StreamChunk (content fullContent : string)          (* role = assistant *)
| ToolCallEv (tool args : string) (id : PyId)          (* status = pending *)
| ToolResultEv (id : string) (result : Content)        (* status = completed *)
| TodosEv (data : list ToDo)
| FilesEv (data : list string)
| Complete (message fullContent : string)
| Initialized (project_path author_mode : string)
| ProjectChanged (project_path : string)
| ModeChanged (mode : string)
| CurrentMode (mode : string)
| Error (error : string).

(* ================================================================= *)
(** ** Small Python helpers *)

(** [s[n:]] on a str. *)
Fixpoint slice_from (n : nat) (s : string) : string :=
  match n, s with
  | 0, _ => s
  | S _, EmptyString => EmptyString
  | S n', String _ s' => slice_from n' s'
  end.

(** [xs[-1]]: [None] stands for the [IndexError] of an empty list. *)
Fixpoint last_item {A} (xs : list A) : option A :=
  match xs with
  | [] => None
  | [x] => Some x
  | _ :: rest => last_item rest
  end.

Fixpoint list_eqb {A} (eqb : A -> A -> bool) (xs ys : list A) : bool :=
  match xs, ys with
  | [], [] => true
  | x :: xs', y :: ys' => eqb x y && list_eqb eqb xs' ys'
  | _, _ => false
  end.

(** [dict.get(key, default)]. *)
Definition get {A} (v : option A) (default : A) : A :=
  match v with Some a => a | None => default end.

(** [list(d.keys())]. *)
Definition keys {A B} (d : list (A * B)) : list A := map fst d.

(* ================================================================= *)
(** ** [AgentService.stream_response]: the snapshot differencer *)

Module Differencer.

(** The four locals declared before the loop (lines 111-114). *)
Record State := mkState {
  last_ai_content    : string;
  last_todos         : list ToDo;
  last_files         : list string;
  current_tool_calls : list ToolCall
}.

Definition initial : State := mkState "" [] [] [].

(** [last_message.content if isinstance(last_message.content, str) else ""] *)
Definition content_str (c : Content) : string :=
  match c with Text s => s | Blocks => "" end.

(** Lines 131-140. *)
Definition content_delta (st : State) (current_content : string)
  : list Event * State :=
  if String.eqb current_content (last_ai_content st) then ([], st)
  else
    let delta := slice_from (String.length (last_ai_content st)) current_content in
    ((if String.eqb delta "" then [] else [StreamChunk delta current_content]),
     mkState current_content (last_todos st) (last_files st)
             (current_tool_calls st)).

Definition tool_id (tc : ToolCall) : PyId := get (tc_id tc) (IdStr "").

(** [tool_id not in [tc.get('id', '') for tc in current_tool_calls]] *)
Definition seen (i : PyId) (current : list ToolCall) : bool :=
  existsb (PyId_eqb i) (map tool_id current).

(** Lines 144-154: the loop over [last_message.tool_calls]. *)
Fixpoint tool_calls_loop (calls current : list ToolCall)
  : list Event * list ToolCall :=
  match calls with
  | [] => ([], current)
  | tool_call :: rest =>
      if seen (tool_id tool_call) current then tool_calls_loop rest current
      else
        let '(evs, current') := tool_calls_loop rest (current ++ [tool_call]) in
        (ToolCallEv (get (tc_name tool_call) "unknown")
                    (get (tc_args tool_call) "{}")
                    (tool_id tool_call) :: evs,
         current')
  end.

(** Lines 124-154: the part guarded by [isinstance(last_message, AIMessage)].
    [chunk["messages"][-1]] raises [IndexError] on an empty list. *)
Definition messages_step (st : State) (c : Chunk)
  : Exn + (list Event * State) :=
  match messages c with
  | None => inr ([], st)
  | Some msgs =>
      match last_item msgs with
      | None => inl (mkExn IndexError "list index out of range")
      | Some (AIMessage content calls) =>
          let '(evs1, st1) := content_delta st (content_str content) in
          let '(evs2, cur) := tool_calls_loop calls (current_tool_calls st1) in
          inr (evs1 ++ evs2,
               mkState (last_ai_content st1) (last_todos st1) (last_files st1) cur)
      | Some _ => inr ([], st)
      end
  end.

(** Lines 157-167: one event per tool message with a non-empty id. *)
Fixpoint tool_results (msgs : list Message) : list Event :=
  match msgs with
  | [] => []
  | ToolMessage tool_call_id content :: rest =>
      if String.eqb tool_call_id "" then tool_results rest
      else ToolResultEv tool_call_id content :: tool_results rest
  | _ :: rest => tool_results rest
  end.

Definition tool_results_step (c : Chunk) : list Event :=
  match messages c with
  | None => []
  | Some msgs => tool_results msgs
  end.

(** Lines 170-177. *)
Definition todos_step (st : State) (c : Chunk) : list Event * State :=
  match todos c with
  | None => ([], st)
  | Some current_todos =>
      if list_eqb ToDo_eqb current_todos (last_todos st) then ([], st)
      else ([TodosEv current_todos],
            mkState (last_ai_content st) current_todos (last_files st)
                    (current_tool_calls st))
  end.

(** Lines 180-187. *)
Definition files_step (st : State) (c : Chunk) : list Event * State :=
  match files c with
  | None => ([], st)
  | Some d =>
      let current_files := keys d in
      if list_eqb String.eqb current_files (last_files st) then ([], st)
      else ([FilesEv current_files],
            mkState (last_ai_content st) (last_todos st) current_files
                    (current_tool_calls st))
  end.

(** The body of the [async for] loop for one chunk.  The only raise is
    the [IndexError], which happens before the first yield. *)
Definition process_chunk (st : State) (c : Chunk)
  : Exn + (list Event * State) :=
  match messages_step st c with
  | inl e => inl e
  | inr (evs1, st1) =>
      let evs2 := tool_results_step c in
      let '(evs3, st3) := todos_step st1 c in
      let '(evs4, st4) := files_step st3 c in
      inr (evs1 ++ evs2 ++ evs3 ++ evs4, st4)
  end.

(** Lines 116-203: the loop, the [complete] event after it and the
    [except Exception] clause around both. *)
Fixpoint drive (st : State) (chunks : list Chunk) (fail : option Exn)
  : list Event :=
  match chunks with
  | [] =>
      match fail with
      | None => [Complete "Agent finished processing" (last_ai_content st)]
      | Some e => [Error (exn_str e)]
      end
  | c :: rest =>
      match process_chunk st c with
      | inl e => [Error (exn_str e)]
      | inr (evs, st') => evs ++ drive st' rest fail
      end
  end.

(** The state in which the loop stands after [chunks], when none of
    them raised. *)
Fixpoint state_after (st : State) (chunks : list Chunk) : option State :=
  match chunks with
  | [] => Some st
  | c :: rest =>
      match process_chunk st c with
      | inl _ => None
      | inr (_, st') => state_after st' rest
      end
  end.

Definition stream_events (src : Source) : list Event :=
  drive initial (snapshots src) (failure src).

End Differencer.

(* ================================================================= *)
(** ** [prompts/prompt_templates.py]: the mode tables *)

(** The twelve prompt constants; their text plays no role here. *)
Inductive Prompt :=
| FICTION_MAIN_AGENT | FICTION_PLANNING_AGENT
| FICTION_WRITING_AGENT | FICTION_EDITING_AGENT
| NON_FICTION_MAIN_AGENT | NON_FICTION_PLANNING_AGENT
| NON_FICTION_WRITING_AGENT | NON_FICTION_EDITING_AGENT
| ACADEMIC_MAIN_AGENT | ACADEMIC_PLANNING_AGENT
| ACADEMIC_WRITING_AGENT | ACADEMIC_EDITING_AGENT.

Definition MAIN_AGENT_TEMPLATES : list (string * Prompt) :=
  [("fiction", FICTION_MAIN_AGENT);
   ("non-fiction", NON_FICTION_MAIN_AGENT);
   ("academic", ACADEMIC_MAIN_AGENT)].

Definition PLANNING_AGENT_TEMPLATES : list (string * Prompt) :=
  [("fiction", FICTION_PLANNING_AGENT);
   ("non-fiction", NON_FICTION_PLANNING_AGENT);
   ("academic", ACADEMIC_PLANNING_AGENT)].

Definition WRITING_AGENT_TEMPLATES : list (string * Prompt) :=
  [("fiction", FICTION_WRITING_AGENT);
   ("non-fiction", NON_FICTION_WRITING_AGENT);
   ("academic", ACADEMIC_WRITING_AGENT)].

Definition EDITING_AGENT_TEMPLATES : list (string * Prompt) :=
  [("fiction", FICTION_EDITING_AGENT);
   ("non-fiction", NON_FICTION_EDITING_AGENT);
   ("academic", ACADEMIC_EDITING_AGENT)].

(** [d.get(key, default)] on a dict with str keys. *)
Fixpoint dict_get {A} (d : list (string * A)) (key : string) (default : A) : A :=
  match d with
  | [] => default
  | (k, v) :: rest => if String.eqb key k then v else dict_get rest key default
  end.

Definition get_main_agent_prompt (mode : string) : Prompt :=
  dict_get MAIN_AGENT_TEMPLATES mode FICTION_MAIN_AGENT.

Record SubagentConfig := mkSubagentConfig {
  sub_name        : string;
  sub_description : string;
  sub_prompt      : Prompt;
  sub_tools       : list string
}.

Definition get_subagent_configs (mode : string) : list SubagentConfig :=
  let planning_prompt := dict_get PLANNING_AGENT_TEMPLATES mode FICTION_PLANNING_AGENT in
  let writing_prompt := dict_get WRITING_AGENT_TEMPLATES mode FICTION_WRITING_AGENT in
  let editing_prompt := dict_get EDITING_AGENT_TEMPLATES mode FICTION_EDITING_AGENT in
  [ mkSubagentConfig "planning-agent"
      "Expert at creating book outlines, structures, and planning. Use for organizing ideas and creating comprehensive outlines."
      planning_prompt ["read_real_file"; "write_real_file"; "list_real_files"];
    mkSubagentConfig "writing-agent"
      "Specialized in writing content. Use for drafting chapters and content that requires consistent voice and style."
      writing_prompt ["read_real_file"; "write_real_file"; "edit_real_file"];
    mkSubagentConfig "editing-agent"
      "Expert editor for refining content, fixing inconsistencies, and improving quality. Use for revision and polish."
      editing_prompt ["read_real_file"; "edit_real_file"] ].

Definition get_available_modes : list string := keys MAIN_AGENT_TEMPLATES.

(* ================================================================= *)
(** ** [AgentService]: construction and reconfiguration *)

(** A file tool is a closure over the project root it was created for. *)
Record Tool := mkTool { tool_name : string; tool_root : string }.

Record ChatModel := mkChatModel { api_key : string }.

Record Subagent := mkSubagent {
  subagent_name        : string;
  subagent_description : string;
  subagent_prompt      : Prompt;
  subagent_tools       : list Tool
}.

(** The agent handle, identified with the arguments it was built from. *)
Record Agent := mkAgent {
  agent_tools        : list Tool;
  agent_instructions : Prompt;
  agent_model        : ChatModel;
  agent_subagents    : list Subagent;
  recursion_limit    : nat
}.

(** What lies outside the repository, as it stands when a command is
    served: path resolution, the API key read by [config.py], whether
    [async_create_deep_agent] raises on given arguments, and the
    snapshots an agent yields for a message and a thread id. *)
Record Env := mkEnv {
  resolve : string -> string;
  OPENROUTER_API_KEY : string;
  async_create_deep_agent : Agent -> option Exn;
  astream : Agent -> string -> option string -> Source
}.

Record AgentService := mkAgentService {
  project_path : string;
  author_mode  : string;
  agent        : option Agent
}.

(** [tools/file_tools.py]. *)
Definition create_file_tools (env : Env) (project_path : string) : list Tool :=
  let project_root := resolve env project_path in
  [ mkTool "read_real_file" project_root;
    mkTool "write_real_file" project_root;
    mkTool "list_real_files" project_root;
    mkTool "edit_real_file" project_root ].

(** [models/model_config.py]. *)
Definition get_default_model (env : Env) : Exn + ChatModel :=
  if String.eqb (OPENROUTER_API_KEY env) "" then
    inl (mkExn ValueError "CLAUDE_API_KEY not found. Please set it in your .env file")
  else inr (mkChatModel (OPENROUTER_API_KEY env)).

(** [[tool_map[name] for name in tool_names if name in tool_map]] *)
Fixpoint lookup_tools (tool_map : list Tool) (tool_names : list string) : list Tool :=
  match tool_names with
  | [] => []
  | name :: rest =>
      match find (fun t => String.eqb (tool_name t) name) tool_map with
      | Some t => t :: lookup_tools tool_map rest
      | None => lookup_tools tool_map rest
      end
  end.

(** [_initialize_agent]: the object as the call leaves it, and the
    exception it raised if any.  [self.agent] is assigned last, so a
    raise leaves the object as it was entered. *)
Definition _initialize_agent (env : Env) (self : AgentService)
  : AgentService * option Exn :=
  let file_tools := create_file_tools env (project_path self) in
  match get_default_model env with
  | inl e => (self, Some e)
  | inr model =>
      let main_agent_prompt := get_main_agent_prompt (author_mode self) in
      let subagent_configs := get_subagent_configs (author_mode self) in
      let subagents :=
        map (fun config =>
               mkSubagent (sub_name config) (sub_description config)
                          (sub_prompt config)
                          (lookup_tools file_tools (sub_tools config)))
            subagent_configs in
      let built := mkAgent file_tools main_agent_prompt model subagents 500 in
      match async_create_deep_agent env built with
      | Some e => (self, Some e)
      | None =>
          (mkAgentService (project_path self) (author_mode self) (Some built), None)
      end
  end.

(** [AgentService(project_path, author_mode)]: the new object, or the
    exception that escaped the constructor. *)
Definition __init__ (env : Env) (project_path author_mode : string)
  : Exn + AgentService :=
  let self := mkAgentService (resolve env project_path) author_mode None in
  match _initialize_agent env self with
  | (_, Some e) => inl e
  | (self', None) => inr self'
  end.

Definition change_project (env : Env) (self : AgentService) (new_project_path : string)
  : AgentService * option Exn :=
  let self1 := mkAgentService (resolve env new_project_path) (author_mode self) (agent self) in
  _initialize_agent env self1.

(** [repr] of a list of plain strings, as the f-string prints it. *)
Definition py_repr_list (xs : list string) : string :=
  ("[" ++ String.concat ", " (map (fun s => "'" ++ s ++ "'") xs) ++ "]")%string.

Definition is_in (x : string) (xs : list string) : bool :=
  existsb (String.eqb x) xs.

Definition change_mode (env : Env) (self : AgentService) (new_mode : string)
  : AgentService * option Exn :=
  let available_modes := get_available_modes in
  if negb (is_in new_mode available_modes) then
    (self, Some (mkExn ValueError
       ("Invalid mode '" ++ new_mode ++ "'. Available modes: "
          ++ py_repr_list available_modes)))
  else
    let self1 := mkAgentService (project_path self) new_mode (agent self) in
    _initialize_agent env self1.

Definition get_current_mode (self : AgentService) : string := author_mode self.

(** [stream_response]: the events yielded, and the exception raised out
    of the generator if any.  [thread_id] reaches the agent only when it
    is truthy. *)
Definition turn_source (env : Env) (a : Agent)
    (user_message : string) (thread_id : option string) : Source :=
  let config :=
    match thread_id with
    | Some t => if String.eqb t "" then None else Some t
    | None => None
    end in
  astream env a user_message config.

Definition stream_response (env : Env) (self : AgentService)
    (user_message : string) (thread_id : option string)
  : list Event * option Exn :=
  match agent self with
  | None => ([], Some (mkExn RuntimeError "Agent not initialized"))
  | Some a =>
      (Differencer.stream_events (turn_source env a user_message thread_id), None)
  end.

(* ================================================================= *)
(** ** [main.py]: the command loop of [websocket_endpoint] *)

(** An inbound frame: a JSON object whose keys may be missing. *)
Record Frame := mkFrame {
  data_type         : option string;
  data_project_path : option string;
  data_author_mode  : option string;
  data_content      : option string;
  data_thread_id    : option string;
  data_mode         : option string
}.

(** Python truthiness of [data.get(key)]. *)
Definition truthy (v : option string) : bool :=
  match v with
  | Some s => negb (String.eqb s "")
  | None => false
  end.

Definition str_or_None (v : option string) : string := get v "None".

(** One iteration of the [while True] loop: the frames sent, and the
    value of the local [agent_service] afterwards. *)
Definition websocket_step (env : Env) (agent_service : option AgentService)
    (data : Frame) : list Event * option AgentService :=
  let message_type := data_type data in
  if get (option_map (String.eqb "init") message_type) false then
    let project_path := data_project_path data in
    let author_mode := get (data_author_mode data) "fiction" in
    if negb (truthy project_path) then
      ([Error "project_path is required for initialization"], agent_service)
    else
      match __init__ env (get project_path "") author_mode with
      | inr svc => ([Initialized (get project_path "") author_mode], Some svc)
      | inl e =>
          ([Error ("Failed to initialize agent: " ++ exn_str e)], agent_service)
      end
  else if get (option_map (String.eqb "message") message_type) false then
    match agent_service with
    | None => ([Error "Agent not initialized. Send 'init' first."], agent_service)
    | Some svc =>
        let content := get (data_content data) "" in
        if String.eqb content "" then
          ([Error "Message content is required"], agent_service)
        else
          let '(chunks, raised) := stream_response env svc content (data_thread_id data) in
          (StreamStart :: chunks ++
             match raised with
             | Some e => [Error ("Agent error: " ++ exn_str e)]
             | None => []
             end,
           agent_service)
    end
  else if get (option_map (String.eqb "change_project") message_type) false then
    match agent_service with
    | None => ([Error "Agent not initialized"], agent_service)
    | Some svc =>
        let new_project_path := data_project_path data in
        if negb (truthy new_project_path) then
          ([Error "project_path is required"], agent_service)
        else
          match change_project env svc (get new_project_path "") with
          | (svc', None) => ([ProjectChanged (get new_project_path "")], Some svc')
          | (svc', Some e) =>
              ([Error ("Failed to change project: " ++ exn_str e)], Some svc')
          end
    end
  else if get (option_map (String.eqb "change_mode") message_type) false then
    match agent_service with
    | None => ([Error "Agent not initialized"], agent_service)
    | Some svc =>
        let new_mode := data_mode data in
        if negb (truthy new_mode) then
          ([Error "mode is required"], agent_service)
        else
          match change_mode env svc (get new_mode "") with
          | (svc', None) => ([ModeChanged (get new_mode "")], Some svc')
          | (svc', Some e) =>
              match exn_class e with
              | ValueError => ([Error (exn_str e)], Some svc')
              | _ => ([Error ("Failed to change mode: " ++ exn_str e)], Some svc')
              end
          end
    end
  else if get (option_map (String.eqb "get_mode") message_type) false then
    match agent_service with
    | None => ([Error "Agent not initialized"], agent_service)
    | Some svc => ([CurrentMode (get_current_mode svc)], agent_service)
    end
  else
    ([Error ("Unknown message type: " ++ str_or_None message_type)], agent_service).

(** The loop over the frames received; each is served in the
    environment of its time. *)
Fixpoint websocket_endpoint (agent_service : option AgentService)
    (inbox : list (Env * Frame)) : list Event * option AgentService :=
  match inbox with
  | [] => ([], agent_service)
  | (env, data) :: rest =>
      let '(sent, agent_service') := websocket_step env agent_service data in
      let '(sent', final) := websocket_endpoint agent_service' rest in
      (sent ++ sent', final)
  end.

(* ================================================================= *)
(** ** Observations on event lists *)

(** The stream-chunk events, in order, as ([content], [fullContent]). *)
Fixpoint stream_chunks (evs : list Event) : list (string * string) :=
  match evs with
  | [] => []
  | StreamChunk delta full :: rest => (delta, full) :: stream_chunks rest
  | _ :: rest => stream_chunks rest
  end.

(** Their [content] fields: the deltas a client concatenates. *)
Definition deltas (evs : list Event) : list string := map fst (stream_chunks evs).

(** ["".join(parts)] *)
Definition join (parts : list string) : string :=
  fold_right String.append "" parts.

(** The ids announced as pending, and those reported completed. *)
Fixpoint pending_ids (evs : list Event) : list PyId :=
  match evs with
  | [] => []
  | ToolCallEv _ _ id :: rest => id :: pending_ids rest
  | _ :: rest => pending_ids rest
  end.

Fixpoint completed_ids (evs : list Event) : list string :=
  match evs with
  | [] => []
  | ToolResultEv id _ :: rest => id :: completed_ids rest
  | _ :: rest => completed_ids rest
  end.

Definition is_terminal (e : Event) : bool :=
  match e with Complete _ _ | Error _ => true | _ => false end.

Definition is_todos (e : Event) : bool :=
  match e with TodosEv _ => true | _ => false end.

Definition is_files (e : Event) : bool :=
  match e with FilesEv _ => true | _ => false end.

Definition nonempty_delta (e : Event) : Prop :=
  match e with StreamChunk delta _ => delta <> "" | _ => True end.

(** What an iteration may yield: never a terminal event, never an
    empty delta. *)
Definition step_event (e : Event) : Prop :=
  match e with
  | StreamChunk delta _ => delta <> ""
  | ToolCallEv _ _ _ | ToolResultEv _ _ | TodosEv _ | FilesEv _ => True
  | _ => False
  end.

Definition only_pending (e : Event) : Prop :=
  match e with ToolCallEv _ _ _ => True | _ => False end.

Definition only_completed (e : Event) : Prop :=
  match e with ToolResultEv _ _ => True | _ => False end.

(** Exactly one terminal event, and it closes the list. *)
Definition one_terminal (evs : list Event) : Prop :=
  List.length (filter is_terminal evs) = 1 /\
  exists body t, evs = body ++ [t] /\ is_terminal t = true.

(** Every service a connection can hold has its handle. *)
Definition bound (agent_service : option AgentService) : Prop :=
  forall svc, agent_service = Some svc -> agent svc <> None.

(** [needle in hay] on strs. *)
Definition contains (needle hay : string) : Prop :=
  exists pre post, hay = (pre ++ needle ++ post)%string.

Module Differencer_facts.
Import Differencer.

(** The events of each snapshot of a turn, one list per snapshot that
    was processed without a raise. *)
Fixpoint per_snapshot (st : State) (chunks : list Chunk) : list (list Event) :=
  match chunks with
  | [] => []
  | c :: rest =>
      match process_chunk st c with
      | inl _ => []
      | inr (evs, st') => evs :: per_snapshot st' rest
      end
  end.

(** The content the loop reads off a chunk at line 128, when it gets
    there. *)
Definition chunk_content (c : Chunk) : option string :=
  match messages c with
  | Some msgs =>
      match last_item msgs with
      | Some (AIMessage content _) => Some (content_str content)
      | _ => None
      end
  | None => None
  end.

(** [chunk["messages"][-1]] does not raise. *)
Definition has_last (c : Chunk) : Prop :=
  match messages c with
  | Some msgs => msgs <> []
  | None => True
  end.

(** Each content read extends the one read before it. *)
Fixpoint append_only (prev : string) (chunks : list Chunk) : Prop :=
  match chunks with
  | [] => True
  | c :: rest =>
      match chunk_content c with
      | Some s => String.prefix prev s = true /\ append_only s rest
      | None => append_only prev rest
      end
  end.

(** The last content read, [prev] when there is none. *)
Fixpoint final_content (prev : string) (chunks : list Chunk) : string :=
  match chunks with
  | [] => prev
  | c :: rest => final_content (get (chunk_content c) prev) rest
  end.

End Differencer_facts.

(* ================================================================= *)
(** ** Concrete turns and sessions used below *)

Module Scenarios.

Definition human : Message := OtherMessage (Text "Write the opening scene").

(** A snapshot whose last message is the assistant's text so far. *)
Definition says (s : string) : Chunk :=
  mkChunk (Some [human; AIMessage (Text s) []]) None None.

(** An environment with an API key, whose agent constructor returns,
    and whose agents yield [src] on every message. *)
Definition env_yielding (src : Source) : Env :=
  mkEnv (fun p => p) "sk-or-test" (fun _ => None) (fun _ _ _ => src).

Definition env_ok : Env := env_yielding (mkSource [] None).

(** The same, with [async_create_deep_agent] raising. *)
Definition env_rebuild_fails : Env :=
  mkEnv (fun p => p) "sk-or-test"
        (fun _ => Some (mkExn OtherError "agent construction failed"))
        (fun _ _ _ => mkSource [] None).

Definition init_frame (p : string) (m : option string) : Frame :=
  mkFrame (Some "init") (Some p) m None None None.

Definition change_project_frame (p : string) : Frame :=
  mkFrame (Some "change_project") (Some p) None None None None.

Definition change_mode_frame (m : string) : Frame :=
  mkFrame (Some "change_mode") None None None None (Some m).

(** The session after [init] of a fiction project at [/books/novel]. *)
Definition ready : option AgentService :=
  snd (websocket_step env_ok None (init_frame "/books/novel" (Some "fiction"))).

Definition novel_agent : Agent :=
  let tools := create_file_tools env_ok "/books/novel" in
  mkAgent tools FICTION_MAIN_AGENT (mkChatModel "sk-or-test")
    (map (fun config =>
            mkSubagent (sub_name config) (sub_description config)
                       (sub_prompt config)
                       (lookup_tools tools (sub_tools config)))
         (get_subagent_configs "fiction"))
    500.

Definition novel_service : AgentService :=
  mkAgentService "/books/novel" "fiction" (Some novel_agent).

Definition hello_turn : Source :=
  mkSource [says "Hello"; says "Hello world"] None.

Definition rewrite_turn : Source :=
  mkSource [says "abc"; says "ab"] None.

(** A turn in [values] mode with one tool call: every snapshot carries
    the whole message list so far. *)
Definition write_call : ToolCall :=
  mkToolCall (Some (IdStr "call_1")) (Some "write_real_file") (Some "{}").

Definition tool_turn : Source :=
  let asks := AIMessage (Text "") [write_call] in
  let done := ToolMessage "call_1" (Text "Successfully wrote file") in
  mkSource
    [ mkChunk (Some [human]) None None;
      mkChunk (Some [human; asks]) None None;
      mkChunk (Some [human; asks; done]) None None;
      mkChunk (Some [human; asks; done; AIMessage (Text "Saved.") []]) None None ]
    None.

(** A single snapshot that already holds the call and its result: the
    assistant message is never the last one. *)
Definition late_turn : Source :=
  mkSource
    [ mkChunk (Some [human; AIMessage (Text "") [write_call];
                     ToolMessage "call_1" (Text "Successfully wrote file")])
        None None ]
    None.

(** Two snapshots holding the same two files, inserted in a different
    order. *)
Definition files_ab : list (string * string) := [("a.md", "A"); ("b.md", "B")].
Definition files_ba : list (string * string) := [("b.md", "B"); ("a.md", "A")].

Definition reorder_turn : Source :=
  mkSource
    [ mkChunk (Some [human]) None (Some files_ab);
      mkChunk (Some [human]) None (Some files_ba) ]
    None.

Definition steady_turn : Source :=
  let plan := [mkToDo "outline" "pending"] in
  mkSource
    [ mkChunk (Some [human]) (Some plan) (Some files_ab);
      mkChunk (Some [human; AIMessage (Text "Working") []]) (Some plan) (Some files_ab) ]
    None.

End Scenarios.

(* ================================================================= *)
(** ** What a client holds after a turn *)

Module Client.
Import Differencer Differencer_facts.

(** A client replaces its todo list by the [data] of each [todos]
    event, and its file list by the [data] of each [files] event. *)
Definition apply_todos (held : list ToDo) (e : Event) : list ToDo :=
  match e with TodosEv data => data | _ => held end.

Definition apply_files (held : list string) (e : Event) : list string :=
  match e with FilesEv data => data | _ => held end.

Definition client_todos (held : list ToDo) (evs : list Event) : list ToDo :=
  fold_left apply_todos evs held.

Definition client_files (held : list string) (evs : list Event) : list string :=
  fold_left apply_files evs held.

(** The value under ["todos"] of the last snapshot that has the key,
    and the keys under ["files"] likewise. *)
Fixpoint final_todos (prev : list ToDo) (chunks : list Chunk) : list ToDo :=
  match chunks with
  | [] => prev
  | c :: rest => final_todos (get (todos c) prev) rest
  end.

Fixpoint final_files (prev : list string) (chunks : list Chunk) : list string :=
  match chunks with
  | [] => prev
  | c :: rest => final_files (get (option_map keys (files c)) prev) rest
  end.

(** The ids of the tool calls the loop looks at in a chunk: those of
    its last message, when that is an [AIMessage]. *)
Definition called_ids (c : Chunk) : list PyId :=
  match messages c with
  | Some msgs =>
      match last_item msgs with
      | Some (AIMessage _ calls) => map tool_id calls
      | _ => []
      end
  | None => []
  end.

Definition is_stream_chunk (e : Event) : Prop :=
  match e with StreamChunk _ _ => True | _ => False end.

Definition only_todos (e : Event) : Prop :=
  match e with TodosEv _ => True | _ => False end.

Definition only_files (e : Event) : Prop :=
  match e with FilesEv _ => True | _ => False end.

(** The delta of a stream-chunk closes its [fullContent]. *)
Definition delta_is_suffix (p : string * string) : Prop :=
  fst p <> "" /\ exists pre, snd p = (pre ++ fst p)%string.

(** The events of one snapshot, by kind and in the order of the loop
    body: at most one stream-chunk, the tool calls, the tool results,
    at most one [todos], at most one [files]. *)
Definition in_kind_order (evs : list Event) : Prop :=
  exists chunkev calls results td fl,
    evs = chunkev ++ calls ++ results ++ td ++ fl /\
    Forall is_stream_chunk chunkev /\ List.length chunkev <= 1 /\
    Forall only_pending calls /\
    Forall only_completed results /\
    Forall only_todos td /\ List.length td <= 1 /\
    Forall only_files fl /\ List.length fl <= 1.

End Client.

(* ================================================================= *)
(** ** More frames and environments used below *)

Module Frames.

Definition get_mode_frame : Frame :=
  mkFrame (Some "get_mode") None None None None None.

Definition message_frame (content : string) : Frame :=
  mkFrame (Some "message") None None (Some content) None None.

(** An environment without API key: [get_default_model] raises. *)
Definition env_no_key : Env :=
  mkEnv (fun p => p) "" (fun _ => None) (fun _ _ _ => mkSource [] None).


Definition only_error (e : Event) : Prop :=
  match e with Error _ => True | _ => False end.

Definition without_key (input : Env * Frame) : Prop :=
  OPENROUTER_API_KEY (fst input) = "".

End Frames.

(* ================================================================= *)
(** ** Python string operations used by the file tools *)

Module PyStr.

Definition newline : string := String "010"%char "".
Definition tab : string := String "009"%char "".

(** [str(n)] for an int. *)
Definition str_nat (n : nat) : string := NilZero.string_of_uint (Nat.to_uint n).
Definition str_int (z : Z) : string := NilZero.string_of_int (Z.to_int z).

(** [s[:n]] *)
Fixpoint take (n : nat) (s : string) : string :=
  match n, s with
  | 0, _ => ""
  | S _, EmptyString => ""
  | S n', String c s' => String c (take n' s')
  end.

(** [s.rstrip('\n')]: every trailing newline goes. *)
Fixpoint rstrip_newline (s : string) : string :=
  match s with
  | EmptyString => ""
  | String c s' =>
      match rstrip_newline s' with
      | EmptyString => if Ascii.eqb c "010"%char then "" else String c ""
      | rest => String c rest
      end
  end.

(** [" " * n + s]: what a width does to a shorter text. *)
Fixpoint spaces (n : nat) : string :=
  match n with 0 => "" | S n' => String " "%char (spaces n') end.

(** [f"{z:6d}"]: right-aligned in six columns, sign included, wider
    when the number needs it. *)
Definition format_6d (z : Z) : string :=
  let digits := str_int z in
  (spaces (6 - String.length digits) ++ digits)%string.

(** ["\n".join(parts)] *)
Fixpoint join_lines (parts : list string) : string :=
  match parts with
  | [] => ""
  | [p] => p
  | p :: rest => (p ++ newline ++ join_lines rest)%string
  end.

(** [old in s] *)
Fixpoint occurs (old s : string) : bool :=
  String.prefix old s ||
  match s with
  | EmptyString => false
  | String _ s' => occurs old s'
  end.

(** [s.count(old)] for a non-empty [old]: occurrences are counted from
    the left and do not overlap; [skip] characters of the last match
    are still to be passed. *)
Fixpoint count_from (old : string) (skip : nat) (s : string) : nat :=
  match s with
  | EmptyString => 0
  | String _ s' =>
      match skip with
      | S k => count_from old k s'
      | 0 =>
          if String.prefix old s then S (count_from old (String.length old - 1) s')
          else count_from old 0 s'
      end
  end.

(** [s.count(old)]; the empty string occurs between any two characters
    and at both ends. *)
Definition count (old s : string) : nat :=
  if String.eqb old "" then S (String.length s) else count_from old 0 s.

(** [s.replace(old, new)] for a non-empty [old]. *)
Fixpoint replace_from (old new : string) (skip : nat) (s : string) : string :=
  match s with
  | EmptyString => ""
  | String c s' =>
      match skip with
      | S k => replace_from old new k s'
      | 0 =>
          if String.prefix old s
          then (new ++ replace_from old new (String.length old - 1) s')%string
          else String c (replace_from old new 0 s')
      end
  end.

Fixpoint intersperse (new s : string) : string :=
  match s with
  | EmptyString => ""
  | String c s' => String c (new ++ intersperse new s')%string
  end.

Definition replace (old new s : string) : string :=
  if String.eqb old "" then (new ++ intersperse new s)%string
  else replace_from old new 0 s.

(** [s.replace(old, new, 1)]: the leftmost occurrence only. *)
Fixpoint replace_first (old new s : string) : string :=
  if String.prefix old s then (new ++ slice_from (String.length old) s)%string
  else
    match s with
    | EmptyString => ""
    | String c s' => String c (replace_first old new s')
    end.

(** [xs[i]] with Python's negative indices; [None] is the [IndexError]. *)
Definition index {A} (xs : list A) (i : Z) : option A :=
  let n := Z.of_nat (List.length xs) in
  if (0 <=? i)%Z then nth_error xs (Z.to_nat i)
  else if (- n <=? i)%Z then nth_error xs (Z.to_nat (n + i))
  else None.

(** [range(a, b)] *)
Definition range (a b : Z) : list Z :=
  map (fun k => (a + Z.of_nat k)%Z) (seq 0 (Z.to_nat (b - a))).

End PyStr.

(* ================================================================= *)
(** ** [tools/file_tools.py]: the four file tools *)

Module FileTools.
Import PyStr.

(** The file system and [pathlib], as the tools use them.  Paths are
    kept as their text.  [relative_to] tells whether
    [a.relative_to(b)] returns; reads and writes return the exception
    they raise, if any. *)
Record FileSystem := mkFileSystem {
  is_absolute : string -> bool;
  as_path     : string -> string;            (* [Path(s)] *)
  joinpath    : string -> string -> string;  (* [root / s] *)
  resolve_path : string -> string;           (* [p.resolve()] *)
  relative_to : string -> string -> bool;
  parent      : string -> string;
  path_exists : string -> bool;
  path_is_file : string -> bool;
  path_is_dir : string -> bool;
  readlines   : string -> Exn + list string;
  read_text   : string -> Exn + string;
  mkdir_fails : string -> option Exn;
  write_fails : string -> string -> option Exn
}.

(** The calls a tool makes that change the file system, in order. *)
Inductive FsCall :=
| Mkdir (dir : string)                       (* parents=True, exist_ok=True *)
| WriteText (path : string) (content : string).

Definition target (call : FsCall) : string :=
  match call with Mkdir dir => dir | WriteText path _ => path end.

(** [_resolve_path] (lines 21-34). *)
Definition _resolve_path (fs : FileSystem) (project_root file_path : string)
  : Exn + string :=
  let full_path :=
    if is_absolute fs file_path then as_path fs file_path
    else joinpath fs project_root file_path in
  if relative_to fs (resolve_path fs full_path) project_root then inr full_path
  else inl (mkExn ValueError ("Path " ++ file_path ++ " is outside project directory")).

(** Lines 78-80: long lines are cut. *)
Definition clip (line_content : string) : string :=
  if Nat.ltb 2000 (String.length line_content)
  then (take 2000 line_content ++ "...")%string
  else line_content.

(** Lines 73-83: one line of the answer. *)
Definition format_line (lines : list string) (i : Z) : option string :=
  match index lines i with
  | None => None
  | Some line =>
      let line_content := rstrip_newline line in
      let line_content := clip line_content in
      let line_number := (i + 1)%Z in
      Some (format_6d line_number ++ tab ++ line_content)%string
  end.

(** The loop over [range(start_idx, end_idx)]; [None] when an index
    raised. *)
Fixpoint format_lines (lines : list string) (indices : list Z) : option (list string) :=
  match indices with
  | [] => Some []
  | i :: rest =>
      match format_line lines i with
      | None => None
      | Some l =>
          match format_lines lines rest with
          | None => None
          | Some ls => Some (l :: ls)
          end
      end
  end.

(** [read_real_file] (lines 37-88). *)
Definition read_real_file (fs : FileSystem) (project_root file_path : string)
    (offset limit : Z) : string :=
  match _resolve_path fs project_root file_path with
  | inl e => "Error reading file: " ++ exn_str e
  | inr full_path =>
      if negb (path_exists fs full_path) then
        "Error: File '" ++ file_path ++ "' not found"
      else if negb (path_is_file fs full_path) then
        "Error: '" ++ file_path ++ "' is not a file"
      else
        match readlines fs full_path with
        | inl e => "Error reading file: " ++ exn_str e
        | inr lines =>
            match lines with
            | [] => "System reminder: File exists but has empty contents"
            | _ =>
                let len := Z.of_nat (List.length lines) in
                let start_idx := offset in
                let end_idx := Z.min (start_idx + limit) len in
                if (len <=? start_idx)%Z then
                  "Error: Line offset " ++ str_int offset
                    ++ " exceeds file length (" ++ str_nat (List.length lines)
                    ++ " lines)"
                else
                  match format_lines lines (range start_idx end_idx) with
                  | None => "Error reading file: list index out of range"
                  | Some result_lines => join_lines result_lines
                  end
            end
        end
  end.

(** [write_real_file] (lines 91-115): the answer and the calls made. *)
Definition write_real_file (fs : FileSystem) (project_root file_path content : string)
  : string * list FsCall :=
  match _resolve_path fs project_root file_path with
  | inl e => (("Error writing file: " ++ exn_str e)%string, [])
  | inr full_path =>
      match mkdir_fails fs (parent fs full_path) with
      | Some e => (("Error writing file: " ++ exn_str e)%string, [Mkdir (parent fs full_path)])
      | None =>
          match write_fails fs full_path content with
          | Some e =>
              (("Error writing file: " ++ exn_str e)%string,
               [Mkdir (parent fs full_path); WriteText full_path content])
          | None =>
              (("Successfully wrote to " ++ file_path ++ " ("
                 ++ str_nat (String.length content) ++ " characters)")%string,
               [Mkdir (parent fs full_path); WriteText full_path content])
          end
      end
  end.

(** [edit_real_file] (lines 163-217). *)
Definition edit_real_file (fs : FileSystem) (project_root file_path : string)
    (old_string new_string : string) (replace_all : bool)
  : string * list FsCall :=
  match _resolve_path fs project_root file_path with
  | inl e => (("Error editing file: " ++ exn_str e)%string, [])
  | inr full_path =>
      if negb (path_exists fs full_path) then
        (("Error: File '" ++ file_path ++ "' not found")%string, [])
      else
        match read_text fs full_path with
        | inl e => (("Error editing file: " ++ exn_str e)%string, [])
        | inr content =>
            if negb (occurs old_string content) then
              ("Error: String not found in file", [])
            else if negb replace_all && Nat.ltb 1 (count old_string content) then
              (("Error: String appears " ++ str_nat (count old_string content)
                 ++ " times in file. Use replace_all=True to replace all instances, or provide a more specific string with surrounding context.")%string,
               [])
            else
              let '(new_content, result_msg) :=
                if replace_all then
                  (replace old_string new_string content,
                   ("Successfully replaced " ++ str_nat (count old_string content)
                     ++ " instance(s) in '" ++ file_path ++ "'")%string)
                else
                  (replace_first old_string new_string content,
                   ("Successfully replaced string in '" ++ file_path ++ "'")%string) in
              match write_fails fs full_path new_content with
              | Some e => (("Error editing file: " ++ exn_str e)%string,
                           [WriteText full_path new_content])
              | None => (result_msg, [WriteText full_path new_content])
              end
        end
  end.

(** The lines of a file as [cat -n] shows them, numbered from [first]. *)
Fixpoint number_lines (first : Z) (ls : list string) : list string :=
  match ls with
  | [] => []
  | l :: rest =>
      (format_6d first ++ tab ++ clip (rstrip_newline l))%string
        :: number_lines (first + 1) rest
  end.

(** The lines met when counting up from index [a]: from [a] to the end
    of the file, and for a negative [a] the last [-a] lines followed by
    the whole file. *)
Definition window (lines : list string) (a : Z) : list string :=
  if (0 <=? a)%Z then skipn (Z.to_nat a) lines
  else skipn (Z.to_nat (Z.of_nat (List.length lines) + a)) lines ++ lines.

(** The path a tool works on. *)
Definition full_path_of (fs : FileSystem) (project_root file_path : string) : string :=
  if is_absolute fs file_path then as_path fs file_path
  else joinpath fs project_root file_path.

(** A file system with one readable file inside the project. *)
Definition one_file (lines : list string) (text : string) : FileSystem :=
  mkFileSystem
    (fun _ => false) (fun p => p) (fun root p => (root ++ "/" ++ p)%string)
    (fun p => p) (fun p root => String.prefix root p) (fun p => "/books/novel/chapters")
    (fun _ => true) (fun _ => true) (fun _ => false)
    (fun _ => inr lines) (fun _ => inr text)
    (fun _ => None) (fun _ _ => None).

Definition three_lines : list string :=
  [("one" ++ newline)%string; ("two" ++ newline)%string; "three"].

(** A file system in which every path resolves to a file next to the
    project, outside of it. *)
Definition escaping : FileSystem :=
  mkFileSystem
    (fun _ => false) (fun p => p) (fun root p => (root ++ "/" ++ p)%string)
    (fun p => "/books/diary.md") (fun p root => String.prefix root p)
    (fun p => "/books") (fun _ => true) (fun _ => true) (fun _ => false)
    (fun _ => inr three_lines) (fun _ => inr "") (fun _ => None) (fun _ _ => None).

End FileTools.

(* ================================================================= *)
(** ** [main.py]: the [/api/project] endpoint *)

Module Rest.
Import FileTools.

(** What the endpoint answers: a JSON body, or an [HTTPException]. *)
Record HTTPException := mkHTTPException { status_code : nat; detail : string }.

(** [set_project] (lines 69-86).  [str_http] is [str(e)] of an
    [HTTPException], which the web framework defines. *)
Definition set_project (fs : FileSystem) (str_http : nat -> string -> string)
    (request_project_path : string) : HTTPException + string :=
  let project_path := as_path fs request_project_path in
  let body : HTTPException + string :=
    if negb (path_exists fs project_path) then
      inl (mkHTTPException 404 "Project path not found")
    else if negb (path_is_dir fs project_path) then
      inl (mkHTTPException 400 "Project path must be a directory")
    else inr project_path in
  match body with
  | inl e => inl (mkHTTPException 500 (str_http (status_code e) (detail e)))
  | inr answer => inr answer
  end.

End Rest.

(* ================================================================= *)
(** ** [AgentService.invoke]: the answer without streaming *)

Module Invoke.

Inductive Result :=
| Succeeded (message : Content) (todos : list ToDo) (files : list string)
| Failed (error : string).

Definition message_content (m : Message) : Content :=
  match m with
  | AIMessage content _ | ToolMessage _ content | OtherMessage content => content
  end.

(** Lines 233-250: the [try] block, on what [ainvoke] returned or
    raised.  A result without ["messages"] raises [KeyError]. *)
Definition summarize (outcome : Exn + Chunk) : Result :=
  match outcome with
  | inl e => Failed (exn_str e)
  | inr result =>
      match messages result with
      | None => Failed "'messages'"
      | Some msgs =>
          let final_message := last_item msgs in
          Succeeded
            (match final_message with
             | Some m => message_content m
             | None => Text ""
             end)
            (get (todos result) [])
            (keys (get (files result) []))
      end
  end.

(** [invoke] (lines 205-250); [ainvoke] is the agent's. *)
Definition invoke (ainvoke : Agent -> string -> option string -> Exn + Chunk)
    (self : AgentService) (user_message : string) (thread_id : option string)
  : Exn + Result :=
  match agent self with
  | None => inl (mkExn RuntimeError "Agent not initialized")
  | Some a =>
      let config :=
        match thread_id with
        | Some t => if String.eqb t "" then None else Some t
        | None => None
        end in
      inr (summarize (ainvoke a user_message config))
  end.

(** A final state with an answer, a plan and two files. *)
Definition final_state : Chunk :=
  mkChunk (Some [Scenarios.human; AIMessage (Text "Done.") []])
          (Some [mkToDo "outline" "completed"])
          (Some Scenarios.files_ab).

End Invoke.

(* ================================================================= *)
(** ** Basic lemmas *)

Lemma PyId_eqb_eq (a b : PyId) : PyId_eqb a b = true <-> a = b.
Proof.
  destruct a as [|s], b as [|t]; simpl; split; intro H;
    try reflexivity; try discriminate.
  - apply String.eqb_eq in H. now subst.
  - injection H as ->. apply String.eqb_refl.
Qed.

Lemma ToDo_eqb_eq (a b : ToDo) : ToDo_eqb a b = true <-> a = b.
Proof.
  destruct a as [c1 s1], b as [c2 s2]; unfold ToDo_eqb; simpl.
  rewrite andb_true_iff, !String.eqb_eq. split.
  - intros [-> ->]. reflexivity.
  - intros H. injection H as -> ->. auto.
Qed.

Lemma list_eqb_eq {A} (eqb : A -> A -> bool) :
  (forall a b, eqb a b = true <-> a = b) ->
  forall xs ys, list_eqb eqb xs ys = true <-> xs = ys.
Proof.
  intros Heq xs. induction xs as [|x xs IH]; intros [|y ys]; simpl;
    try (split; [reflexivity || discriminate | reflexivity || discriminate]).
  rewrite andb_true_iff, Heq, IH. split.
  - intros [-> ->]. reflexivity.
  - intros H. injection H as -> ->. auto.
Qed.

Lemma list_eqb_refl {A} (eqb : A -> A -> bool) :
  (forall a b, eqb a b = true <-> a = b) ->
  forall xs, list_eqb eqb xs xs = true.
Proof. intros Heq xs. now apply (list_eqb_eq eqb Heq). Qed.

Lemma slice_from_length (s : string) : slice_from (String.length s) s = "".
Proof. induction s as [|a s IH]; simpl; auto. Qed.

Lemma prefix_slice (p s : string) :
  String.prefix p s = true ->
  (p ++ slice_from (String.length p) s)%string = s.
Proof.
  revert s. induction p as [|a p IH]; intros s H; simpl.
  - reflexivity.
  - destruct s as [|b s]; simpl in H; [discriminate|].
    destruct (ascii_dec a b) as [->|]; [|discriminate].
    simpl. now rewrite IH.
Qed.

Lemma stream_chunks_app (xs ys : list Event) :
  stream_chunks (xs ++ ys) = stream_chunks xs ++ stream_chunks ys.
Proof.
  induction xs as [|[] xs IH]; simpl; auto. now rewrite IH.
Qed.

Lemma deltas_app (xs ys : list Event) : deltas (xs ++ ys) = deltas xs ++ deltas ys.
Proof. unfold deltas. now rewrite stream_chunks_app, map_app. Qed.

Lemma pending_ids_app (xs ys : list Event) :
  pending_ids (xs ++ ys) = pending_ids xs ++ pending_ids ys.
Proof.
  induction xs as [|[] xs IH]; simpl; auto. now rewrite IH.
Qed.

Lemma join_app (xs ys : list string) :
  join (xs ++ ys) = (join xs ++ join ys)%string.
Proof.
  induction xs as [|x xs IH]; simpl; auto.
  rewrite IH. clear. induction x as [|a x IHx]; simpl; auto. now rewrite IHx.
Qed.

Lemma last_item_None {A} (xs : list A) : last_item xs = None -> xs = [].
Proof.
  induction xs as [|x [|y rest] IH]; simpl; intros H;
    [reflexivity | discriminate | discriminate (IH H)].
Qed.

Lemma append_empty_r (s : string) : (s ++ "")%string = s.
Proof. induction s as [|a s IH]; simpl; congruence. Qed.

Lemma append_assoc (a b c : string) :
  (a ++ (b ++ c))%string = ((a ++ b) ++ c)%string.
Proof. induction a as [|x a IH]; simpl; congruence. Qed.

(* ================================================================= *)
(** ** The shape of one loop iteration *)

Section Steps.
Import Differencer Differencer_facts.

Lemma content_delta_spec (st : State) (s : string) :
  exists evs,
    content_delta st s =
      (evs, mkState s (last_todos st) (last_files st) (current_tool_calls st))
    /\ (evs = [] \/
        (slice_from (String.length (last_ai_content st)) s <> "" /\
         evs = [StreamChunk (slice_from (String.length (last_ai_content st)) s) s])).
Proof.
  unfold content_delta.
  destruct (String.eqb_spec s (last_ai_content st)) as [->|Hne].
  - exists []. split; [|now left]. now destruct st.
  - destruct (String.eqb_spec (slice_from (String.length (last_ai_content st)) s) "")
      as [Hd|Hd]; eexists; split; try reflexivity; auto.
Qed.

Lemma tool_calls_loop_pending (calls current : list ToolCall) :
  Forall only_pending (fst (tool_calls_loop calls current)).
Proof.
  revert current. induction calls as [|tc rest IH]; intros current; simpl.
  - constructor.
  - destruct (seen (tool_id tc) current); [apply IH|].
    specialize (IH (current ++ [tc])).
    destruct (tool_calls_loop rest (current ++ [tc])) as [evs cur'].
    simpl in *. constructor; [exact I | exact IH].
Qed.

Lemma tool_results_completed (msgs : list Message) :
  Forall only_completed (tool_results msgs).
Proof.
  induction msgs as [|[c tcs|i c|c] rest IH]; simpl; auto.
  destruct (String.eqb i ""); auto. constructor; [exact I | exact IH].
Qed.

Lemma todos_step_spec (st : State) (c : Chunk) :
  todos_step st c = ([], st) \/
  exists t, todos c = Some t /\ t <> last_todos st /\
    todos_step st c =
      ([TodosEv t],
       mkState (last_ai_content st) t (last_files st) (current_tool_calls st)).
Proof.
  unfold todos_step. destruct (todos c) as [t|]; [|now left].
  destruct (list_eqb ToDo_eqb t (last_todos st)) eqn:E; [now left|].
  right. exists t. repeat split; auto.
  intros ->. rewrite (list_eqb_refl _ ToDo_eqb_eq) in E. discriminate.
Qed.

Lemma files_step_spec (st : State) (c : Chunk) :
  files_step st c = ([], st) \/
  exists d, files c = Some d /\ keys d <> last_files st /\
    files_step st c =
      ([FilesEv (keys d)],
       mkState (last_ai_content st) (last_todos st) (keys d) (current_tool_calls st)).
Proof.
  unfold files_step. destruct (files c) as [d|]; [|now left].
  destruct (list_eqb String.eqb (keys d) (last_files st)) eqn:E; [now left|].
  right. exists d. repeat split; auto.
  intros Heq. rewrite Heq, (list_eqb_refl _ String.eqb_eq) in E. discriminate.
Qed.

(** An iteration factors into its four stages. *)
Lemma process_chunk_inv (st st' : State) (c : Chunk) (evs : list Event) :
  process_chunk st c = inr (evs, st') ->
  exists evs1 st1 evs3 st3 evs4,
    messages_step st c = inr (evs1, st1) /\
    todos_step st1 c = (evs3, st3) /\
    files_step st3 c = (evs4, st') /\
    evs = evs1 ++ tool_results_step c ++ evs3 ++ evs4.
Proof.
  unfold process_chunk. intros H.
  destruct (messages_step st c) as [e|[evs1 st1]]; [discriminate|].
  destruct (todos_step st1 c) as [evs3 st3] eqn:E3.
  destruct (files_step st3 c) as [evs4 st4] eqn:E4.
  injection H as <- <-. now exists evs1, st1, evs3, st3, evs4.
Qed.

Lemma process_chunk_total (st : State) (c : Chunk) :
  has_last c -> exists evs st', process_chunk st c = inr (evs, st').
Proof.
  unfold has_last, process_chunk, messages_step. intros H.
  destruct (messages c) as [msgs|].
  - destruct (last_item msgs) as [m|] eqn:El.
    + destruct m as [content calls|i content|content].
      * destruct (content_delta st (content_str content)) as [evs1 st1].
        destruct (tool_calls_loop calls (current_tool_calls st1)) as [evs2 cur].
        destruct (todos_step _ c) as [evs3 st3].
        destruct (files_step st3 c) as [evs4 st4]. eauto.
      * destruct (todos_step st c) as [evs3 st3].
        destruct (files_step st3 c) as [evs4 st4]. eauto.
      * destruct (todos_step st c) as [evs3 st3].
        destruct (files_step st3 c) as [evs4 st4]. eauto.
    + apply last_item_None in El. contradiction.
  - destruct (todos_step st c) as [evs3 st3].
    destruct (files_step st3 c) as [evs4 st4]. eauto.
Qed.

(** The content stage: what it yields and what it records. *)
Lemma messages_step_spec (st st1 : State) (c : Chunk) (evs1 : list Event) :
  messages_step st c = inr (evs1, st1) ->
  last_todos st1 = last_todos st /\ last_files st1 = last_files st /\
  match chunk_content c with
  | None => evs1 = [] /\ st1 = st
  | Some s =>
      last_ai_content st1 = s /\
      exists evsd evsp,
        evs1 = evsd ++ evsp /\ Forall only_pending evsp /\
        fst (content_delta st s) = evsd
  end.
Proof.
  unfold messages_step, chunk_content. intros H.
  destruct (messages c) as [msgs|]; [|injection H as <- <-; auto].
  destruct (last_item msgs) as [[content calls|i content|content]|];
    try discriminate; try (injection H as <- <-; auto).
  destruct (content_delta_spec st (content_str content)) as [evsd [Hd _]].
  rewrite Hd in *. simpl in H.
  pose proof (tool_calls_loop_pending calls (current_tool_calls st)) as Hp.
  destruct (tool_calls_loop calls (current_tool_calls st)) as [evs2 cur].
  injection H as <- <-. simpl. repeat split; auto.
  exists evsd, evs2. auto.
Qed.

End Steps.

(* ================================================================= *)
(** ** The shape of a turn *)

Section Turn.
Import Differencer Differencer_facts.

Lemma only_pending_step (evs : list Event) :
  Forall only_pending evs -> Forall step_event evs.
Proof. apply Forall_impl. now intros []. Qed.

Lemma only_completed_step (evs : list Event) :
  Forall only_completed evs -> Forall step_event evs.
Proof. apply Forall_impl. now intros []. Qed.

Lemma process_chunk_events (st st' : State) (c : Chunk) (evs : list Event) :
  process_chunk st c = inr (evs, st') -> Forall step_event evs.
Proof.
  intros H. apply process_chunk_inv in H.
  destruct H as (evs1 & st1 & evs3 & st3 & evs4 & Hm & Ht & Hf & ->).
  repeat rewrite Forall_app. repeat split.
  - apply messages_step_spec in Hm. destruct Hm as (_ & _ & Hm).
    destruct (chunk_content c) as [s|].
    + destruct Hm as (_ & evsd & evsp & -> & Hp & Hd).
      apply Forall_app. split; [|now apply only_pending_step].
      destruct (content_delta_spec st s) as (evs & Heq & [->|[Hne ->]]);
        rewrite Heq in Hd; simpl in Hd; subst evsd; repeat constructor; auto.
    + destruct Hm as [-> _]. constructor.
  - unfold tool_results_step. destruct (messages c); [|constructor].
    apply only_completed_step, tool_results_completed.
  - destruct (todos_step_spec st1 c) as [E|(t & _ & _ & E)];
      rewrite E in Ht; injection Ht as <- <-; repeat constructor.
  - destruct (files_step_spec st3 c) as [E|(d & _ & _ & E)];
      rewrite E in Hf; injection Hf as <- <-; repeat constructor.
Qed.

Lemma per_snapshot_events (chunks : list Chunk) (st : State) :
  Forall (Forall step_event) (per_snapshot st chunks).
Proof.
  revert st. induction chunks as [|c rest IH]; intros st; simpl; [constructor|].
  destruct (process_chunk st c) as [e|[evs st']] eqn:E; [constructor|].
  constructor; [eapply process_chunk_events; eauto | apply IH].
Qed.

(** A turn is the events of its snapshots followed by one terminal
    event. *)
Lemma drive_shape (chunks : list Chunk) (st : State) (fail : option Exn) :
  exists t, is_terminal t = true /\
    drive st chunks fail = concat (per_snapshot st chunks) ++ [t].
Proof.
  revert st. induction chunks as [|c rest IH]; intros st; simpl.
  - destruct fail as [e|];
      [exists (Error (exn_str e)) | eexists (Complete _ _)]; now split.
  - destruct (process_chunk st c) as [e|[evs st']].
    + exists (Error (exn_str e)). now split.
    + destruct (IH st') as (t & Ht & ->). exists t. split; auto.
      now rewrite app_assoc.
Qed.

Lemma step_event_not_terminal (e : Event) : step_event e -> is_terminal e = false.
Proof. now destruct e. Qed.

Lemma step_event_nonempty (e : Event) : step_event e -> nonempty_delta e.
Proof. now destruct e. Qed.

Lemma body_events (chunks : list Chunk) (st : State) :
  Forall step_event (concat (per_snapshot st chunks)).
Proof. apply Forall_concat, per_snapshot_events. Qed.

End Turn.

(* ================================================================= *)
(** ** Content deltas *)

Section Deltas.
Import Differencer Differencer_facts.

Lemma only_pending_chunks (evs : list Event) :
  Forall only_pending evs -> stream_chunks evs = [].
Proof. induction 1 as [|[] evs H _ IH]; simpl; auto; contradiction. Qed.

Lemma only_completed_chunks (evs : list Event) :
  Forall only_completed evs -> stream_chunks evs = [].
Proof. induction 1 as [|[] evs H _ IH]; simpl; auto; contradiction. Qed.

(** The stream-chunks of an iteration are those of its content stage,
    and the content it read is what it records. *)
Lemma process_chunk_chunks (st st' : State) (c : Chunk) (evs : list Event) :
  process_chunk st c = inr (evs, st') ->
  match chunk_content c with
  | None => last_ai_content st' = last_ai_content st /\ stream_chunks evs = []
  | Some s =>
      last_ai_content st' = s /\
      stream_chunks evs = stream_chunks (fst (content_delta st s))
  end.
Proof.
  intros H. apply process_chunk_inv in H.
  destruct H as (evs1 & st1 & evs3 & st3 & evs4 & Hm & Ht & Hf & ->).
  assert (Hrest : stream_chunks (tool_results_step c ++ evs3 ++ evs4) = []
                  /\ last_ai_content st' = last_ai_content st1).
  { rewrite !stream_chunks_app.
    assert (stream_chunks (tool_results_step c) = []) as ->.
    { unfold tool_results_step. destruct (messages c); auto.
      apply only_completed_chunks, tool_results_completed. }
    destruct (files_step_spec st3 c) as [E'|(d & _ & _ & E')];
      rewrite E' in Hf; injection Hf as <- <-;
      (destruct (todos_step_spec st1 c) as [E|(t & _ & _ & E)];
       rewrite E in Ht; injection Ht as <- <-); auto. }
  destruct Hrest as [Hrest Hlast].
  rewrite stream_chunks_app, Hrest, app_nil_r, Hlast.
  apply messages_step_spec in Hm. destruct Hm as (_ & _ & Hm).
  destruct (chunk_content c) as [s|].
  - destruct Hm as (Hs & evsd & evsp & -> & Hp & Hd). split; auto.
    now rewrite stream_chunks_app, (only_pending_chunks _ Hp), app_nil_r, Hd.
  - destruct Hm as [-> ->]. auto.
Qed.

Lemma process_chunk_deltas (st st' : State) (c : Chunk) (evs : list Event) :
  process_chunk st c = inr (evs, st') ->
  match chunk_content c with
  | None => last_ai_content st' = last_ai_content st /\ deltas evs = []
  | Some s =>
      last_ai_content st' = s /\ deltas evs = deltas (fst (content_delta st s))
  end.
Proof.
  intros H. apply process_chunk_chunks in H. unfold deltas.
  destruct (chunk_content c); destruct H as [H1 ->]; auto.
Qed.

Lemma content_delta_extends (st : State) (s : string) :
  String.prefix (last_ai_content st) s = true ->
  (last_ai_content st ++ join (deltas (fst (content_delta st s))))%string = s.
Proof.
  intros Hp. apply prefix_slice in Hp.
  destruct (content_delta_spec st s) as (evs & Heq & [->|[Hne ->]]);
    rewrite Heq; simpl.
  - unfold content_delta in Heq.
    destruct (String.eqb_spec s (last_ai_content st)) as [->|Hne].
    + apply append_empty_r.
    + destruct (String.eqb_spec (slice_from (String.length (last_ai_content st)) s) "")
        as [Hd|Hd]; [|discriminate].
      now rewrite Hd in Hp.
  - now rewrite append_empty_r.
Qed.

(** Delta concatenation from any loop state: the recorded content
    followed by the deltas still to come is the last content read. *)
Lemma drive_deltas (chunks : list Chunk) (st : State) (fail : option Exn) :
  append_only (last_ai_content st) chunks ->
  Forall has_last chunks ->
  (last_ai_content st ++ join (deltas (drive st chunks fail)))%string
  = final_content (last_ai_content st) chunks.
Proof.
  revert st. induction chunks as [|c rest IH]; intros st Ha Hl; simpl.
  - destruct fail; simpl; apply append_empty_r.
  - inversion Hl as [|? ? Hc Hrest]; subst.
    destruct (process_chunk_total st c Hc) as (evs & st' & E). rewrite E.
    pose proof (process_chunk_deltas _ _ _ _ E) as Hd.
    simpl in Ha. rewrite deltas_app, join_app, append_assoc.
    destruct (chunk_content c) as [s|]; simpl.
    + destruct Ha as [Hp Ha]. destruct Hd as [Hs ->].
      rewrite (content_delta_extends st s Hp). rewrite <- Hs in *.
      now apply IH.
    + destruct Hd as [Hs ->]. simpl. rewrite append_empty_r, <- Hs in *.
      now apply IH.
Qed.

(** C1.  Delta concatenation: when the content read from the snapshots
    of a turn is append-only, the [content] fields of the stream-chunk
    events yielded by [stream_response], joined in order, are exactly
    the content of the last snapshot. *)
Theorem delta_concatenation (env : Env) (self : AgentService) (a : Agent)
    (user_message : string) (thread_id : option string) :
  agent self = Some a ->
  append_only "" (snapshots (turn_source env a user_message thread_id)) ->
  Forall has_last (snapshots (turn_source env a user_message thread_id)) ->
  join (deltas (fst (stream_response env self user_message thread_id)))
  = final_content "" (snapshots (turn_source env a user_message thread_id)).
Proof.
  intros Ha Happ Hlast. unfold stream_response. rewrite Ha. simpl.
  exact (drive_deltas _ initial _ Happ Hlast).
Qed.

Lemma delta_concatenation_witness :
  join (deltas (fst (stream_response (Scenarios.env_yielding Scenarios.hello_turn)
                       Scenarios.novel_service "Greet me" None)))
  = "Hello world".
Proof.
  apply (delta_concatenation (Scenarios.env_yielding Scenarios.hello_turn)
           Scenarios.novel_service Scenarios.novel_agent "Greet me" None).
  - reflexivity.
  - simpl. auto.
  - repeat constructor; simpl; discriminate.
Defined.

End Deltas.

(* ================================================================= *)
(** ** Content that is not append-only *)

Section Rewrites.
Import Differencer Differencer_facts.

Lemma slice_from_empty (n : nat) (s : string) :
  slice_from n s = "" <-> String.length s <= n.
Proof.
  revert s. induction n as [|n IH]; intros [|a s]; simpl; split; intros H;
    try reflexivity; try lia; try discriminate.
  - apply IH in H. lia.
  - apply IH. lia.
Qed.

Lemma chunk_content_has_last (c : Chunk) (s : string) :
  chunk_content c = Some s -> has_last c.
Proof.
  unfold chunk_content, has_last. destruct (messages c) as [[|m msgs]|]; auto;
    simpl; discriminate.
Qed.

Lemma drive_app (pre rest : list Chunk) (st st1 : State) (fail : option Exn) :
  state_after st pre = Some st1 ->
  drive st (pre ++ rest) fail = concat (per_snapshot st pre) ++ drive st1 rest fail.
Proof.
  revert st. induction pre as [|c pre IH]; intros st H; simpl in *.
  - now injection H as ->.
  - destruct (process_chunk st c) as [e|[evs st']]; [discriminate|].
    simpl. now rewrite (IH _ H), app_assoc.
Qed.

(** C2, as the code has it.  When the content read from a snapshot does
    not start with the content recorded before it, the turn goes on
    without raising; the snapshot yields one stream-chunk whose delta is
    the new content minus its first [len(previous)] characters (with the
    new content as [fullContent]) when the new content is longer than
    the previous one, and no stream-chunk otherwise; the new content is
    recorded either way. *)
Theorem rewritten_content_delta (pre rest : list Chunk) (fail : option Exn)
    (st : State) (c : Chunk) (s : string) :
  state_after initial pre = Some st ->
  chunk_content c = Some s ->
  String.prefix (last_ai_content st) s = false ->
  exists evs st',
    process_chunk st c = inr (evs, st') /\
    last_ai_content st' = s /\
    stream_chunks evs =
      (if Nat.leb (String.length s) (String.length (last_ai_content st)) then []
       else [(slice_from (String.length (last_ai_content st)) s, s)]) /\
    stream_events (mkSource (pre ++ c :: rest) fail)
    = concat (per_snapshot initial pre) ++ evs ++ drive st' rest fail.
Proof.
  intros Hpre Hc Hp.
  destruct (process_chunk_total st c (chunk_content_has_last c s Hc))
    as (evs & st' & E).
  exists evs, st'. pose proof (process_chunk_chunks _ _ _ _ E) as Hd.
  rewrite Hc in Hd. destruct Hd as [Hs Hd]. repeat split; auto.
  - rewrite Hd. unfold content_delta.
    destruct (String.eqb_spec s (last_ai_content st)) as [->|Hne].
    { exfalso. clear -Hp. induction (last_ai_content st) as [|a p IH];
        simpl in Hp; [discriminate|].
      destruct (ascii_dec a a); [auto|contradiction]. }
    simpl.
    destruct (String.eqb_spec (slice_from (String.length (last_ai_content st)) s) "")
      as [Hd'|Hd']; destruct (Nat.leb_spec (String.length s)
                                (String.length (last_ai_content st))) as [Hl|Hl];
      try reflexivity.
    + apply slice_from_empty in Hd'. lia.
    + apply slice_from_empty in Hl. contradiction.
  - unfold stream_events. simpl. rewrite (drive_app _ _ _ _ _ Hpre). simpl.
    now rewrite E.
Qed.

Lemma rewritten_content_delta_witness :
  exists evs st',
    process_chunk (mkState "abc" [] [] []) (Scenarios.says "ab") = inr (evs, st') /\
    last_ai_content st' = "ab" /\
    stream_chunks evs = [] /\
    stream_events Scenarios.rewrite_turn
    = [StreamChunk "abc" "abc"] ++ evs ++ drive st' [] None.
Proof.
  apply (rewritten_content_delta [Scenarios.says "abc"] [] None
           (mkState "abc" [] [] []) (Scenarios.says "ab") "ab");
    reflexivity.
Defined.

(** C2, as the claim states it, fails on the turn ["abc"], ["ab"]: the
    second event is the terminal [complete], and no stream-chunk with
    delta ["ab"] is yielded at all. *)
Lemma rewrite_turn_no_full_delta :
  String.prefix "abc" "ab" = false /\
  fst (stream_response (Scenarios.env_yielding Scenarios.rewrite_turn)
         Scenarios.novel_service "Rewrite it" None)
  = [StreamChunk "abc" "abc"; Complete "Agent finished processing" "ab"] /\
  nth_error (fst (stream_response (Scenarios.env_yielding Scenarios.rewrite_turn)
                    Scenarios.novel_service "Rewrite it" None)) 1
  <> Some (StreamChunk "ab" "ab").
Proof.
  repeat split; try reflexivity. simpl. discriminate.
Qed.

(** C10.  Every stream-chunk event yielded by [stream_response] carries
    a non-empty delta, whatever the snapshots are. *)
Theorem stream_chunk_delta_nonempty (env : Env) (self : AgentService)
    (user_message : string) (thread_id : option string) :
  Forall nonempty_delta (fst (stream_response env self user_message thread_id)).
Proof.
  unfold stream_response. destruct (agent self) as [a|]; simpl; [|constructor].
  unfold stream_events.
  destruct (drive_shape (snapshots (turn_source env a user_message thread_id))
              initial (failure (turn_source env a user_message thread_id)))
    as (t & Ht & ->).
  apply Forall_app. split.
  - eapply Forall_impl; [apply step_event_nonempty | apply body_events].
  - constructor; [|constructor]. now destruct t.
Qed.

End Rewrites.

(* ================================================================= *)
(** ** Todos and files *)

Section Replacements.
Import Differencer Differencer_facts.

Lemma filter_none {A} (p : A -> bool) (Q : A -> Prop) (xs : list A) :
  (forall x, Q x -> p x = false) -> Forall Q xs -> filter p xs = [].
Proof.
  intros HQ H. induction H as [|x xs Hx _ IH]; simpl; auto.
  now rewrite (HQ x Hx).
Qed.

Lemma messages_step_quiet (st st1 : State) (c : Chunk) (evs1 : list Event) :
  messages_step st c = inr (evs1, st1) ->
  filter is_todos evs1 = [] /\ filter is_files evs1 = [].
Proof.
  intros H. apply messages_step_spec in H. destruct H as (_ & _ & H).
  destruct (chunk_content c) as [s|]; [|destruct H as [-> _]; auto].
  destruct H as (_ & evsd & evsp & -> & Hp & Hd).
  rewrite !filter_app.
  rewrite (filter_none is_todos only_pending evsp), (filter_none is_files only_pending evsp);
    auto; try (now intros []).
  destruct (content_delta_spec st s) as (evs & Heq & [->|[_ ->]]);
    rewrite Heq in Hd; subst evsd; auto.
Qed.

Lemma tool_results_quiet (c : Chunk) :
  filter is_todos (tool_results_step c) = [] /\
  filter is_files (tool_results_step c) = [].
Proof.
  unfold tool_results_step. destruct (messages c) as [msgs|]; auto.
  split; apply (filter_none _ only_completed); try (now intros []);
    apply tool_results_completed.
Qed.

(** The todos stage is the only one that yields [todos] events, and it
    leaves the value of the snapshot in [last_todos]. *)
Lemma process_chunk_todos (st st' : State) (c : Chunk) (evs : list Event) :
  process_chunk st c = inr (evs, st') ->
  last_todos st' = get (todos c) (last_todos st) /\
  filter is_todos evs =
    match todos c with
    | Some t => if list_eqb ToDo_eqb t (last_todos st) then [] else [TodosEv t]
    | None => []
    end.
Proof.
  intros H. apply process_chunk_inv in H.
  destruct H as (evs1 & st1 & evs3 & st3 & evs4 & Hm & Ht & Hf & ->).
  destruct (messages_step_quiet _ _ _ _ Hm) as [Hq _].
  destruct (tool_results_quiet c) as [Hr _].
  apply messages_step_spec in Hm. destruct Hm as (Hlt & _ & _).
  rewrite !filter_app, Hq, Hr. simpl.
  unfold todos_step in Ht. unfold files_step in Hf. rewrite Hlt in Ht.
  assert (Hf' : last_todos st' = last_todos st3 /\ filter is_todos evs4 = []).
  { destruct (files c) as [d|]; [|injection Hf as <- <-; auto].
    destruct (list_eqb String.eqb (keys d) (last_files st3));
      injection Hf as <- <-; auto. }
  destruct Hf' as [-> ->]. rewrite app_nil_r.
  destruct (todos c) as [t|]; simpl; [|injection Ht as <- <-; auto].
  destruct (list_eqb ToDo_eqb t (last_todos st)) eqn:E;
    injection Ht as <- <-; auto.
  apply (list_eqb_eq _ ToDo_eqb_eq) in E. split; [congruence | reflexivity].
Qed.

(** The same for [files], on the list of keys. *)
Lemma process_chunk_files (st st' : State) (c : Chunk) (evs : list Event) :
  process_chunk st c = inr (evs, st') ->
  last_files st' = get (option_map keys (files c)) (last_files st) /\
  filter is_files evs =
    match files c with
    | Some d =>
        if list_eqb String.eqb (keys d) (last_files st) then [] else [FilesEv (keys d)]
    | None => []
    end.
Proof.
  intros H. apply process_chunk_inv in H.
  destruct H as (evs1 & st1 & evs3 & st3 & evs4 & Hm & Ht & Hf & ->).
  destruct (messages_step_quiet _ _ _ _ Hm) as [_ Hq].
  destruct (tool_results_quiet c) as [_ Hr].
  apply messages_step_spec in Hm. destruct Hm as (_ & Hlf & _).
  rewrite !filter_app, Hq, Hr. simpl.
  unfold todos_step in Ht. unfold files_step in Hf.
  assert (Ht' : last_files st3 = last_files st /\ filter is_files evs3 = []).
  { rewrite <- Hlf. destruct (todos c) as [t|]; [|injection Ht as <- <-; auto].
    destruct (list_eqb ToDo_eqb t (last_todos st1));
      injection Ht as <- <-; auto. }
  destruct Ht' as [Hst3 ->]. rewrite Hst3 in Hf. simpl.
  destruct (files c) as [d|]; simpl; [|injection Hf as <- <-; auto].
  destruct (list_eqb String.eqb (keys d) (last_files st)) eqn:E;
    injection Hf as <- <-; auto.
  apply (list_eqb_eq _ String.eqb_eq) in E. split; [congruence | reflexivity].
Qed.

(** Two consecutive snapshots are processed one right after the other. *)
Lemma per_snapshot_consecutive (chunks : list Chunk) (i : nat) (st : State)
    (c1 c2 : Chunk) (evs : list Event) :
  nth_error chunks i = Some c1 ->
  nth_error chunks (S i) = Some c2 ->
  nth_error (per_snapshot st chunks) (S i) = Some evs ->
  exists st0 evs1 st1 st2,
    process_chunk st0 c1 = inr (evs1, st1) /\
    process_chunk st1 c2 = inr (evs, st2).
Proof.
  revert i st. induction chunks as [|c rest IH]; intros i st H1 H2 H3.
  - destruct i; discriminate.
  - simpl in H3. destruct (process_chunk st c) as [e|[evs0 st']] eqn:E;
      [discriminate|].
    destruct i as [|i]; simpl in *.
    + injection H1 as ->. destruct rest as [|c' rest']; [discriminate|].
      injection H2 as ->. simpl in H3.
      destruct (process_chunk st' c2) as [e|[evs2 st2]] eqn:E2; [discriminate|].
      injection H3 as ->. now exists st, evs0, st', st2.
    + eapply IH; eauto.
Qed.

(** C9, as the code has it.  Between two consecutive snapshots of a turn
    with equal [todos] values no [todos] event is yielded, and between
    two consecutive snapshots whose [files] dicts list the same keys in
    the same order no [files] event is yielded. *)
Theorem noop_suppression (src : Source) (i : nat) (c1 c2 : Chunk)
    (evs : list Event) :
  nth_error (snapshots src) i = Some c1 ->
  nth_error (snapshots src) (S i) = Some c2 ->
  nth_error (per_snapshot initial (snapshots src)) (S i) = Some evs ->
  (todos c1 = todos c2 -> filter is_todos evs = []) /\
  (option_map keys (files c1) = option_map keys (files c2) ->
   filter is_files evs = []).
Proof.
  intros H1 H2 H3.
  destruct (per_snapshot_consecutive _ _ _ _ _ _ H1 H2 H3)
    as (st0 & evs1 & st1 & st2 & E1 & E2).
  split; intros Heq.
  - destruct (process_chunk_todos _ _ _ _ E1) as [Hl _].
    destruct (process_chunk_todos _ _ _ _ E2) as [_ ->].
    rewrite <- Heq, Hl. destruct (todos c1) as [t|]; simpl; auto.
    now rewrite (list_eqb_refl _ ToDo_eqb_eq).
  - destruct (process_chunk_files _ _ _ _ E1) as [Hl _].
    destruct (process_chunk_files _ _ _ _ E2) as [_ ->].
    rewrite Hl. destruct (files c2) as [d2|]; auto.
    destruct (files c1) as [d1|]; simpl in *; [|discriminate].
    injection Heq as ->. now rewrite (list_eqb_refl _ String.eqb_eq).
Qed.

Lemma noop_suppression_witness :
  filter is_todos [StreamChunk "Working" "Working"] = [] /\
  filter is_files [StreamChunk "Working" "Working"] = [].
Proof.
  destruct (noop_suppression Scenarios.steady_turn 0
              (mkChunk (Some [Scenarios.human])
                 (Some [mkToDo "outline" "pending"]) (Some Scenarios.files_ab))
              (mkChunk (Some [Scenarios.human; AIMessage (Text "Working") []])
                 (Some [mkToDo "outline" "pending"]) (Some Scenarios.files_ab))
              [StreamChunk "Working" "Working"]
              eq_refl eq_refl eq_refl) as [Ht Hf].
  split; [apply Ht | apply Hf]; reflexivity.
Defined.

(** C9, as the claim states it, fails for [files]: the two snapshots of
    [reorder_turn] hold the same set of file names, yet a [files] event
    is yielded between them, because the key lists are compared in
    order. *)
Lemma reorder_turn_files_event :
  (forall name, In name (keys Scenarios.files_ab) <-> In name (keys Scenarios.files_ba)) /\
  NoDup (keys Scenarios.files_ab) /\ NoDup (keys Scenarios.files_ba) /\
  nth_error (per_snapshot initial (snapshots Scenarios.reorder_turn)) 1
  = Some [FilesEv ["b.md"; "a.md"]] /\
  stream_events Scenarios.reorder_turn
  = [FilesEv ["a.md"; "b.md"]; FilesEv ["b.md"; "a.md"];
     Complete "Agent finished processing" ""].
Proof.
  repeat split; try reflexivity.
  - simpl. intuition.
  - simpl. intuition.
  - repeat constructor; simpl; intuition discriminate.
  - repeat constructor; simpl; intuition discriminate.
Qed.

End Replacements.

(* ================================================================= *)
(** ** Tool-call lifecycle events *)

Section ToolEvents.
Import Differencer Differencer_facts.

Lemma seen_false (i : PyId) (current : list ToolCall) :
  seen i current = false <-> ~ In i (map tool_id current).
Proof.
  unfold seen. split.
  - intros H Hin. apply not_true_iff_false in H. apply H.
    apply existsb_exists. exists i. split; auto. now apply PyId_eqb_eq.
  - intros H. apply not_true_iff_false. intros Hex.
    apply existsb_exists in Hex. destruct Hex as (j & Hj & Heq).
    apply PyId_eqb_eq in Heq. now subst.
Qed.

(** The dedup loop announces exactly the ids it appends, and keeps the
    ids of [current_tool_calls] distinct. *)
Lemma tool_calls_loop_ids (calls current : list ToolCall) :
  map tool_id (snd (tool_calls_loop calls current))
  = map tool_id current ++ pending_ids (fst (tool_calls_loop calls current)) /\
  (NoDup (map tool_id current) ->
   NoDup (map tool_id (snd (tool_calls_loop calls current)))).
Proof.
  revert current. induction calls as [|tc rest IH]; intros current; simpl.
  - now rewrite app_nil_r.
  - destruct (seen (tool_id tc) current) eqn:Es; [apply IH|].
    specialize (IH (current ++ [tc])).
    destruct (tool_calls_loop rest (current ++ [tc])) as [evs cur'].
    simpl in *. destruct IH as [Hids Hnd]. split.
    + rewrite Hids, map_app. simpl. now rewrite <- app_assoc.
    + intros H. apply Hnd. rewrite map_app. simpl.
      apply NoDup_app; [exact H | repeat constructor; intros [] | ].
      intros x Hx [<-|[]]. now apply seen_false in Es.
Qed.

Lemma content_delta_calls (st : State) (s : string) :
  current_tool_calls (snd (content_delta st s)) = current_tool_calls st /\
  pending_ids (fst (content_delta st s)) = [].
Proof.
  destruct (content_delta_spec st s) as (evs & -> & [->|[_ ->]]); auto.
Qed.

Lemma process_chunk_ids (st st' : State) (c : Chunk) (evs : list Event) :
  process_chunk st c = inr (evs, st') ->
  map tool_id (current_tool_calls st')
  = map tool_id (current_tool_calls st) ++ pending_ids evs /\
  (NoDup (map tool_id (current_tool_calls st)) ->
   NoDup (map tool_id (current_tool_calls st'))).
Proof.
  intros H. apply process_chunk_inv in H.
  destruct H as (evs1 & st1 & evs3 & st3 & evs4 & Hm & Ht & Hf & ->).
  assert (Hrest : pending_ids (tool_results_step c ++ evs3 ++ evs4) = []
                  /\ current_tool_calls st' = current_tool_calls st1).
  { rewrite !pending_ids_app.
    assert (pending_ids (tool_results_step c) = []) as ->.
    { unfold tool_results_step. destruct (messages c) as [msgs|]; auto.
      pose proof (tool_results_completed msgs) as Hc.
      induction Hc as [|[] ? ? _ IH]; simpl; auto; contradiction. }
    destruct (files_step_spec st3 c) as [E'|(d & _ & _ & E')];
      rewrite E' in Hf; injection Hf as <- <-;
      (destruct (todos_step_spec st1 c) as [E|(t & _ & _ & E)];
       rewrite E in Ht; injection Ht as <- <-); auto. }
  destruct Hrest as [Hrest ->]. rewrite pending_ids_app, Hrest, app_nil_r.
  clear Ht Hf Hrest. unfold messages_step in Hm.
  destruct (messages c) as [msgs|];
    [|injection Hm as <- <-; simpl; now rewrite app_nil_r].
  destruct (last_item msgs) as [[content calls|i content|content]|];
    try discriminate;
    try (injection Hm as <- <-; simpl; now rewrite app_nil_r).
  destruct (content_delta_calls st (content_str content)) as [Hc Hp].
  destruct (content_delta st (content_str content)) as [evsd std]. simpl in *.
  pose proof (tool_calls_loop_ids calls (current_tool_calls std)) as Hl.
  destruct (tool_calls_loop calls (current_tool_calls std)) as [evs2 cur].
  injection Hm as <- <-. simpl in *.
  now rewrite pending_ids_app, Hp, <- Hc.
Qed.

Lemma drive_pending_NoDup (chunks : list Chunk) (st : State) (fail : option Exn) :
  NoDup (map tool_id (current_tool_calls st)) ->
  NoDup (map tool_id (current_tool_calls st) ++ pending_ids (drive st chunks fail)).
Proof.
  revert st. induction chunks as [|c rest IH]; intros st H; simpl.
  - destruct fail; simpl; now rewrite app_nil_r.
  - destruct (process_chunk st c) as [e|[evs st']] eqn:E; simpl.
    + now rewrite app_nil_r.
    + destruct (process_chunk_ids _ _ _ _ E) as [Hids Hnd].
      rewrite pending_ids_app, app_assoc, <- Hids. auto.
Qed.

(** The half of C3 that holds: within a turn no id is announced as
    pending twice. *)
Lemma pending_at_most_once (env : Env) (self : AgentService)
    (user_message : string) (thread_id : option string) :
  NoDup (pending_ids (fst (stream_response env self user_message thread_id))).
Proof.
  unfold stream_response. destruct (agent self) as [a|]; simpl; [|constructor].
  apply (drive_pending_NoDup _ initial). constructor.
Qed.

(** C3 fails for [completed]: in the turn [tool_turn], whose snapshots
    carry the whole message list as [stream_mode="values"] delivers it,
    the result of [call_1] is reported by two [tool-result] events, one
    for each snapshot that contains the tool message. *)
Theorem tool_result_reported_twice :
  fst (stream_response (Scenarios.env_yielding Scenarios.tool_turn)
         Scenarios.novel_service "Save the scene" None)
  = [ToolCallEv "write_real_file" "{}" (IdStr "call_1");
     ToolResultEv "call_1" (Text "Successfully wrote file");
     StreamChunk "Saved." "Saved.";
     ToolResultEv "call_1" (Text "Successfully wrote file");
     Complete "Agent finished processing" "Saved."] /\
  count_occ string_dec
    (completed_ids (fst (stream_response (Scenarios.env_yielding Scenarios.tool_turn)
                           Scenarios.novel_service "Save the scene" None)))
    "call_1" = 2.
Proof. split; reflexivity. Qed.

(** The tool-result path does not look at [current_tool_calls] either:
    a result is reported for an id that no [tool-call] event announced. *)
Lemma tool_result_without_pending :
  stream_events Scenarios.late_turn
  = [ToolResultEv "call_1" (Text "Successfully wrote file");
     Complete "Agent finished processing" ""].
Proof. reflexivity. Qed.

End ToolEvents.

(* ================================================================= *)
(** ** Agent construction *)

Section Construction.

(** [_initialize_agent] either returns with a handle installed, or
    raises and leaves the object untouched. *)
Lemma initialize_agent_spec (env : Env) (self self' : AgentService) (r : option Exn) :
  _initialize_agent env self = (self', r) ->
  match r with
  | None =>
      project_path self' = project_path self /\
      author_mode self' = author_mode self /\
      exists a, agent self' = Some a /\
                agent_instructions a = get_main_agent_prompt (author_mode self)
  | Some _ => self' = self
  end.
Proof.
  unfold _initialize_agent. destruct (get_default_model env) as [e|model].
  - intros H. now injection H as <- <-.
  - match goal with |- context [async_create_deep_agent env ?b] =>
      destruct (async_create_deep_agent env b) as [e|] end;
      intros H; injection H as <- <-; simpl; eauto.
Qed.

Lemma initialize_agent_returns (env : Env) (self : AgentService) :
  OPENROUTER_API_KEY env <> "" ->
  (forall a, async_create_deep_agent env a = None) ->
  snd (_initialize_agent env self) = None.
Proof.
  intros Hk Hc. unfold _initialize_agent, get_default_model.
  destruct (String.eqb_spec (OPENROUTER_API_KEY env) ""); [contradiction|].
  now rewrite Hc.
Qed.

Lemma init_spec (env : Env) (p m : string) (svc : AgentService) :
  __init__ env p m = inr svc ->
  project_path svc = resolve env p /\ author_mode svc = m /\
  exists a, agent svc = Some a /\ agent_instructions a = get_main_agent_prompt m.
Proof.
  unfold __init__.
  destruct (_initialize_agent env (mkAgentService (resolve env p) m None))
    as [self' [e|]] eqn:E; [discriminate|].
  intros H. injection H as <-. now apply initialize_agent_spec in E.
Qed.

Lemma init_returns (env : Env) (p m : string) :
  OPENROUTER_API_KEY env <> "" ->
  (forall a, async_create_deep_agent env a = None) ->
  exists svc, __init__ env p m = inr svc.
Proof.
  intros Hk Hc. unfold __init__.
  pose proof (initialize_agent_returns env (mkAgentService (resolve env p) m None) Hk Hc) as H.
  destruct (_initialize_agent env _) as [self' r]. simpl in H. subst r. eauto.
Qed.

(** A failed rebuild keeps the handle; a successful one installs one. *)
Lemma change_project_agent (env : Env) (self : AgentService) (p : string) :
  agent self <> None -> agent (fst (change_project env self p)) <> None.
Proof.
  intros H. unfold change_project.
  destruct (_initialize_agent env _) as [self' r] eqn:E.
  apply initialize_agent_spec in E. destruct r as [e|]; simpl.
  - now subst self'.
  - destruct E as (_ & _ & a & -> & _). discriminate.
Qed.

Lemma change_mode_agent (env : Env) (self : AgentService) (m : string) :
  agent self <> None -> agent (fst (change_mode env self m)) <> None.
Proof.
  intros H. unfold change_mode.
  destruct (negb (is_in m get_available_modes)); [exact H|].
  destruct (_initialize_agent env _) as [self' r] eqn:E.
  apply initialize_agent_spec in E. destruct r as [e|]; simpl.
  - now subst self'.
  - destruct E as (_ & _ & a & -> & _). discriminate.
Qed.

Lemma websocket_step_bound (env : Env) (agent_service : option AgentService)
    (data : Frame) :
  bound agent_service -> bound (snd (websocket_step env agent_service data)).
Proof.
  intros Hb. unfold websocket_step.
  destruct (get (option_map (String.eqb "init") (data_type data)) false).
  { destruct (negb (truthy (data_project_path data))); [exact Hb|].
    destruct (__init__ env _ _) as [e|svc] eqn:E; [exact Hb|].
    apply init_spec in E. destruct E as (_ & _ & a & Ha & _).
    intros svc' H. simpl in H. injection H as <-. congruence. }
  destruct (get (option_map (String.eqb "message") (data_type data)) false).
  { destruct agent_service as [svc|]; [|exact Hb].
    destruct (String.eqb (get (data_content data) "") ""); [exact Hb|].
    destruct (stream_response env svc _ _). exact Hb. }
  destruct (get (option_map (String.eqb "change_project") (data_type data)) false).
  { destruct agent_service as [svc|]; [|exact Hb].
    destruct (negb (truthy (data_project_path data))); [exact Hb|].
    pose proof (change_project_agent env svc (get (data_project_path data) "")
                  (Hb svc eq_refl)) as H.
    destruct (change_project env svc _) as [svc' [e|]]; simpl in *;
      intros s Hs; injection Hs as <-; exact H. }
  destruct (get (option_map (String.eqb "change_mode") (data_type data)) false).
  { destruct agent_service as [svc|]; [|exact Hb].
    destruct (negb (truthy (data_mode data))); [exact Hb|].
    pose proof (change_mode_agent env svc (get (data_mode data) "")
                  (Hb svc eq_refl)) as H.
    destruct (change_mode env svc _) as [svc' [e|]]; simpl in *.
    - destruct (exn_class e); intros s Hs; injection Hs as <-; exact H.
    - intros s Hs; injection Hs as <-; exact H. }
  destruct (get (option_map (String.eqb "get_mode") (data_type data)) false).
  { destruct agent_service as [svc|]; exact Hb. }
  exact Hb.
Qed.

Lemma websocket_endpoint_bound (inbox : list (Env * Frame))
    (agent_service : option AgentService) :
  bound agent_service -> bound (snd (websocket_endpoint agent_service inbox)).
Proof.
  revert agent_service. induction inbox as [|[env data] rest IH];
    intros agent_service Hb; simpl; [exact Hb|].
  pose proof (websocket_step_bound env agent_service data Hb) as Hs.
  destruct (websocket_step env agent_service data) as [sent agent_service'].
  specialize (IH agent_service' Hs).
  destruct (websocket_endpoint agent_service' rest) as [sent' final]. exact IH.
Qed.

End Construction.

(* ================================================================= *)
(** ** Terminal events *)

Section Terminal.
Import Differencer Differencer_facts.

Lemma drive_one_terminal (chunks : list Chunk) (st : State) (fail : option Exn) :
  one_terminal (drive st chunks fail).
Proof.
  destruct (drive_shape chunks st fail) as (t & Ht & ->). split.
  - rewrite filter_app, (filter_none is_terminal step_event);
      [simpl; now rewrite Ht | apply step_event_not_terminal | apply body_events].
  - eauto.
Qed.

(** On a service that holds its handle the generator never raises and
    closes with its only terminal event. *)
Lemma stream_response_one_terminal (env : Env) (self : AgentService)
    (user_message : string) (thread_id : option string) :
  agent self <> None ->
  one_terminal (fst (stream_response env self user_message thread_id)) /\
  snd (stream_response env self user_message thread_id) = None.
Proof.
  intros H. unfold stream_response. destruct (agent self) as [a|]; [|contradiction].
  simpl. split; [apply drive_one_terminal | reflexivity].
Qed.

(** C4.  Terminal uniqueness: on every service a connection can come to
    hold, a turn of [stream_response] yields exactly one terminal event
    ([complete] or [error]), as its last event, and the generator does
    not raise; so nothing, and no [complete] in particular, follows an
    [error]. *)
Theorem terminal_uniqueness (inbox : list (Env * Frame)) (sent : list Event)
    (svc : AgentService) (env : Env) (user_message : string)
    (thread_id : option string) :
  websocket_endpoint None inbox = (sent, Some svc) ->
  one_terminal (fst (stream_response env svc user_message thread_id)) /\
  snd (stream_response env svc user_message thread_id) = None.
Proof.
  intros H. apply stream_response_one_terminal.
  assert (Hb : bound (snd (websocket_endpoint None inbox))).
  { apply websocket_endpoint_bound. intros s Hs. discriminate. }
  rewrite H in Hb. now apply Hb.
Qed.

Lemma terminal_uniqueness_witness :
  one_terminal (fst (stream_response (Scenarios.env_yielding Scenarios.hello_turn)
                       Scenarios.novel_service "Greet me" None)) /\
  snd (stream_response (Scenarios.env_yielding Scenarios.hello_turn)
         Scenarios.novel_service "Greet me" None) = None.
Proof.
  apply (terminal_uniqueness
           [(Scenarios.env_ok, Scenarios.init_frame "/books/novel" (Some "fiction"))]
           [Initialized "/books/novel" "fiction"]).
  reflexivity.
Defined.

End Terminal.

(* ================================================================= *)
(** ** Session commands *)

Section Commands.

Lemma dict_get_default {A} (d : list (string * A)) (key : string) (default : A) :
  is_in key (keys d) = false -> dict_get d key default = default.
Proof.
  induction d as [|[k v] d IH]; simpl; auto.
  intros H. apply orb_false_iff in H. destruct H as [-> H]. auto.
Qed.

(** C5, as the code has it.  An [init] command with a non-empty
    [project_path] is accepted whatever its mode string: when agent
    construction does not raise, the session holds a new service with
    that mode stored, its handle built from [get_main_agent_prompt] of
    the mode (the fiction prompt when the mode is not a recognized one),
    and the single event sent is [initialized] with the path and mode
    of the command. *)
Theorem init_accepts_any_mode (env : Env) (agent_service : option AgentService)
    (data : Frame) (p : string) :
  data_type data = Some "init" ->
  data_project_path data = Some p ->
  p <> "" ->
  OPENROUTER_API_KEY env <> "" ->
  (forall a, async_create_deep_agent env a = None) ->
  exists svc a,
    websocket_step env agent_service data
    = ([Initialized p (get (data_author_mode data) "fiction")], Some svc) /\
    project_path svc = resolve env p /\
    author_mode svc = get (data_author_mode data) "fiction" /\
    agent svc = Some a /\
    agent_instructions a = get_main_agent_prompt (get (data_author_mode data) "fiction") /\
    (is_in (get (data_author_mode data) "fiction") get_available_modes = false ->
     agent_instructions a = FICTION_MAIN_AGENT).
Proof.
  intros Ht Hp Hne Hk Hc.
  destruct (init_returns env p (get (data_author_mode data) "fiction") Hk Hc)
    as [svc E].
  destruct (init_spec _ _ _ _ E) as (Hpp & Hm & a & Ha & Hi).
  exists svc, a. unfold websocket_step. rewrite Ht, Hp. simpl.
  destruct (String.eqb_spec p ""); [contradiction|]. simpl. rewrite E.
  repeat split; auto.
  intros Hin. rewrite Hi. now apply dict_get_default.
Qed.

Lemma init_accepts_any_mode_witness :
  exists svc a,
    websocket_step Scenarios.env_ok None
      (Scenarios.init_frame "/books/verse" (Some "poetry"))
    = ([Initialized "/books/verse" "poetry"], Some svc) /\
    project_path svc = "/books/verse" /\
    author_mode svc = "poetry" /\
    agent svc = Some a /\
    agent_instructions a = FICTION_MAIN_AGENT /\
    (is_in "poetry" get_available_modes = false ->
     agent_instructions a = FICTION_MAIN_AGENT).
Proof.
  apply (init_accepts_any_mode Scenarios.env_ok None
           (Scenarios.init_frame "/books/verse" (Some "poetry")) "/books/verse");
    try reflexivity; simpl; discriminate.
Defined.

(** C5, as the claim states it, fails: ["poetry"] is not a recognized
    mode, yet [init] with it sends [initialized] and no [error], and the
    session holds a service with an agent handle. *)
Lemma init_poetry_is_initialized :
  is_in "poetry" get_available_modes = false /\
  fst (websocket_step Scenarios.env_ok None
         (Scenarios.init_frame "/books/verse" (Some "poetry")))
  = [Initialized "/books/verse" "poetry"] /\
  exists svc a,
    snd (websocket_step Scenarios.env_ok None
           (Scenarios.init_frame "/books/verse" (Some "poetry"))) = Some svc /\
    agent svc = Some a.
Proof.
  repeat split. eexists. eexists. split; reflexivity.
Qed.

End Commands.

Section Reconfiguration.

(** C7.  A [change_mode] command whose mode string is not a recognized
    mode, received by a session that holds a service, is answered by a
    single [error] event whose text contains the mode string, and the
    session keeps the very same service: stored mode and agent handle
    are unchanged.  For a non-empty mode the text is the [ValueError] of
    [AgentService.change_mode]; for the empty string it is
    ["mode is required"]. *)
Theorem change_mode_rejects_unknown (env : Env) (svc : AgentService)
    (data : Frame) (m : string) :
  data_type data = Some "change_mode" ->
  data_mode data = Some m ->
  is_in m get_available_modes = false ->
  exists msg,
    websocket_step env (Some svc) data = ([Error msg], Some svc) /\
    contains m msg /\
    (m <> "" ->
     msg = ("Invalid mode '" ++ m
            ++ "'. Available modes: ['fiction', 'non-fiction', 'academic']")%string).
Proof.
  intros Ht Hm Hin. unfold websocket_step. rewrite Ht, Hm. simpl.
  destruct (String.eqb_spec m "") as [->|Hne]; simpl.
  - exists "mode is required". repeat split; [|congruence].
    now exists "", "mode is required".
  - unfold change_mode. rewrite Hin. simpl. eexists. repeat split.
    now exists "Invalid mode '",
      "'. Available modes: ['fiction', 'non-fiction', 'academic']".
Qed.

Lemma change_mode_rejects_unknown_witness :
  exists msg,
    websocket_step Scenarios.env_ok (Some Scenarios.novel_service)
      (Scenarios.change_mode_frame "poetry")
    = ([Error msg], Some Scenarios.novel_service) /\
    contains "poetry" msg /\
    ("poetry" <> "" ->
     msg = "Invalid mode 'poetry'. Available modes: ['fiction', 'non-fiction', 'academic']").
Proof.
  apply (change_mode_rejects_unknown Scenarios.env_ok Scenarios.novel_service
           (Scenarios.change_mode_frame "poetry") "poetry"); reflexivity.
Defined.

(** C8, as the code has it.  An [init] command with a non-empty
    [project_path] received while the session already holds a service is
    served like the first one: the events sent are those of a first
    [init]; when construction succeeds the session holds the newly
    constructed service in place of the old one; when it raises the old
    service is kept. *)
Theorem init_on_ready_session (env : Env) (old : AgentService) (data : Frame)
    (p : string) :
  data_type data = Some "init" ->
  data_project_path data = Some p ->
  p <> "" ->
  fst (websocket_step env (Some old) data) = fst (websocket_step env None data) /\
  (forall svc, snd (websocket_step env None data) = Some svc ->
     snd (websocket_step env (Some old) data) = Some svc /\
     fst (websocket_step env (Some old) data)
     = [Initialized p (get (data_author_mode data) "fiction")] /\
     project_path svc = resolve env p) /\
  (snd (websocket_step env None data) = None ->
     snd (websocket_step env (Some old) data) = Some old /\
     exists msg, fst (websocket_step env (Some old) data) = [Error msg]).
Proof.
  intros Ht Hp Hne. unfold websocket_step. rewrite Ht, Hp. simpl.
  destruct (String.eqb_spec p ""); [contradiction|]. simpl.
  destruct (__init__ env p (get (data_author_mode data) "fiction"))
    as [e|svc] eqn:E; simpl.
  - repeat split; try discriminate; eauto.
  - repeat split; try discriminate; auto.
    injection H as <-. now apply init_spec in E.
Qed.

Lemma init_on_ready_session_witness :
  fst (websocket_step Scenarios.env_ok (Some Scenarios.novel_service)
         (Scenarios.init_frame "/books/memoir" (Some "non-fiction")))
  = [Initialized "/books/memoir" "non-fiction"] /\
  (forall svc,
     snd (websocket_step Scenarios.env_ok None
            (Scenarios.init_frame "/books/memoir" (Some "non-fiction"))) = Some svc ->
     snd (websocket_step Scenarios.env_ok (Some Scenarios.novel_service)
            (Scenarios.init_frame "/books/memoir" (Some "non-fiction"))) = Some svc /\
     fst (websocket_step Scenarios.env_ok (Some Scenarios.novel_service)
            (Scenarios.init_frame "/books/memoir" (Some "non-fiction")))
     = [Initialized "/books/memoir" "non-fiction"] /\
     project_path svc = "/books/memoir") /\
  (snd (websocket_step Scenarios.env_ok None
          (Scenarios.init_frame "/books/memoir" (Some "non-fiction"))) = None ->
   snd (websocket_step Scenarios.env_ok (Some Scenarios.novel_service)
          (Scenarios.init_frame "/books/memoir" (Some "non-fiction")))
   = Some Scenarios.novel_service /\
   exists msg,
     fst (websocket_step Scenarios.env_ok (Some Scenarios.novel_service)
            (Scenarios.init_frame "/books/memoir" (Some "non-fiction")))
     = [Error msg]).
Proof.
  apply (init_on_ready_session Scenarios.env_ok Scenarios.novel_service
           (Scenarios.init_frame "/books/memoir" (Some "non-fiction"))
           "/books/memoir");
    [reflexivity | reflexivity | discriminate].
Defined.

(** C8, as the claim states it, fails: a session that holds the service
    of [/books/novel] answers a second [init] with [initialized], not
    with an error, and afterwards holds another service, with another
    agent handle. *)
Lemma second_init_replaces_service :
  Scenarios.ready = Some Scenarios.novel_service /\
  fst (websocket_step Scenarios.env_ok Scenarios.ready
         (Scenarios.init_frame "/books/memoir" (Some "non-fiction")))
  = [Initialized "/books/memoir" "non-fiction"] /\
  exists svc,
    snd (websocket_step Scenarios.env_ok Scenarios.ready
           (Scenarios.init_frame "/books/memoir" (Some "non-fiction"))) = Some svc /\
    project_path svc = "/books/memoir" /\
    agent svc <> agent Scenarios.novel_service.
Proof.
  repeat split. eexists. repeat split. simpl. discriminate.
Qed.

(** A rebuild that raises in [change_project] leaves the new path in
    the service, next to the old handle. *)
Lemma change_project_failure (env : Env) (self self' : AgentService)
    (p : string) (e : Exn) :
  change_project env self p = (self', Some e) ->
  self' = mkAgentService (resolve env p) (author_mode self) (agent self).
Proof.
  unfold change_project. intros H. now apply initialize_agent_spec in H.
Qed.

(** The parts of C6 that hold: one [error] event, the session still
    holds a service, and its agent handle is the old one. *)
Lemma change_project_failure_step (env : Env) (svc : AgentService)
    (data : Frame) (p : string) (e : Exn) :
  data_type data = Some "change_project" ->
  data_project_path data = Some p ->
  p <> "" ->
  snd (change_project env svc p) = Some e ->
  websocket_step env (Some svc) data
  = ([Error ("Failed to change project: " ++ exn_str e)],
     Some (mkAgentService (resolve env p) (author_mode svc) (agent svc))).
Proof.
  intros Ht Hp Hne He. unfold websocket_step. rewrite Ht, Hp. simpl.
  destruct (String.eqb_spec p ""); [contradiction|]. simpl.
  destruct (change_project env svc p) as [svc' r] eqn:E. simpl in He. subst r.
  now rewrite (change_project_failure _ _ _ _ _ E).
Qed.

(** C6 fails on the project path: the session of [/books/novel] is sent
    [change_project] to [/books/memoir] while agent construction raises.
    One [error] is sent and the old handle (tools rooted at
    [/books/novel]) is kept, but the service now reports
    [/books/memoir] as its project path. *)
Theorem failed_change_project_moves_path :
  Scenarios.ready = Some Scenarios.novel_service /\
  project_path Scenarios.novel_service = "/books/novel" /\
  websocket_step Scenarios.env_rebuild_fails Scenarios.ready
    (Scenarios.change_project_frame "/books/memoir")
  = ([Error "Failed to change project: agent construction failed"],
     Some (mkAgentService "/books/memoir" "fiction" (Some Scenarios.novel_agent))) /\
  map tool_root (agent_tools Scenarios.novel_agent)
  = ["/books/novel"; "/books/novel"; "/books/novel"; "/books/novel"].
Proof. repeat split. Qed.

(** The moved path is not inert: the next successful rebuild, here a
    [change_mode], builds the agent on the project whose change was
    reported as failed. *)
Lemma failed_change_project_leaks :
  exists svc a,
    websocket_endpoint Scenarios.ready
      [(Scenarios.env_rebuild_fails, Scenarios.change_project_frame "/books/memoir");
       (Scenarios.env_ok, Scenarios.change_mode_frame "academic")]
    = ([Error "Failed to change project: agent construction failed";
        ModeChanged "academic"], Some svc) /\
    agent svc = Some a /\
    map tool_root (agent_tools a)
    = ["/books/memoir"; "/books/memoir"; "/books/memoir"; "/books/memoir"].
Proof. eexists. eexists. repeat split. Qed.

End Reconfiguration.

(* ================================================================= *)
(** ** More on the event stream of a turn *)

Section TurnOutcome.
Import Differencer Differencer_facts Client.

Lemma state_after_total (chunks : list Chunk) (st : State) :
  Forall has_last chunks -> exists st', state_after st chunks = Some st'.
Proof.
  revert st. induction chunks as [|c rest IH]; intros st H; simpl; eauto.
  inversion H as [|? ? Hc Hrest]; subst.
  destruct (process_chunk_total st c Hc) as (evs & st' & ->). auto.
Qed.

Lemma state_after_content (chunks : list Chunk) (st st' : State) :
  state_after st chunks = Some st' ->
  last_ai_content st' = final_content (last_ai_content st) chunks.
Proof.
  revert st. induction chunks as [|c rest IH]; intros st H; simpl in *.
  - now injection H as <-.
  - destruct (process_chunk st c) as [e|[evs st1]] eqn:E; [discriminate|].
    rewrite (IH _ H). apply process_chunk_deltas in E.
    destruct (chunk_content c); destruct E as [-> _]; reflexivity.
Qed.

Lemma drive_all (chunks : list Chunk) (st st' : State) (fail : option Exn) :
  state_after st chunks = Some st' ->
  drive st chunks fail
  = concat (per_snapshot st chunks) ++
    [match fail with
     | None => Complete "Agent finished processing" (last_ai_content st')
     | Some e => Error (exn_str e)
     end].
Proof.
  intros H. rewrite <- (app_nil_r chunks) at 1.
  rewrite (drive_app _ _ _ _ _ H). now destruct fail.
Qed.

(** When the source ends normally and every snapshot carries a message,
    the turn closes with [complete] whose [fullContent] is the last
    content read, whether or not the content was append-only and
    whether or not anything was streamed. *)
Theorem complete_carries_last_content (env : Env) (self : AgentService) (a : Agent)
    (user_message : string) (thread_id : option string) :
  agent self = Some a ->
  failure (turn_source env a user_message thread_id) = None ->
  Forall has_last (snapshots (turn_source env a user_message thread_id)) ->
  exists body,
    fst (stream_response env self user_message thread_id)
    = body ++ [Complete "Agent finished processing"
                 (final_content "" (snapshots (turn_source env a user_message thread_id)))]
    /\ Forall step_event body.
Proof.
  intros Ha Hf Hl. unfold stream_response. rewrite Ha. simpl.
  unfold stream_events. rewrite Hf.
  destruct (state_after_total _ initial Hl) as [st' Hs].
  rewrite (drive_all _ _ _ _ Hs), (state_after_content _ _ _ Hs).
  eexists. split; [reflexivity | apply body_events].
Qed.

Lemma complete_carries_last_content_witness :
  exists body,
    fst (stream_response (Scenarios.env_yielding Scenarios.rewrite_turn)
           Scenarios.novel_service "Rewrite it" None)
    = body ++ [Complete "Agent finished processing" "ab"]
    /\ Forall step_event body.
Proof.
  apply (complete_carries_last_content (Scenarios.env_yielding Scenarios.rewrite_turn)
           Scenarios.novel_service Scenarios.novel_agent "Rewrite it" None).
  - reflexivity.
  - reflexivity.
  - repeat constructor; simpl; discriminate.
Defined.

(** A source that raises after its snapshots loses nothing already
    yielded: the events are those of the same snapshots from a source
    that ends normally, with [error] in place of [complete]. *)
Theorem failing_source_keeps_events (chunks : list Chunk) (e : Exn) :
  Forall has_last chunks ->
  exists body full,
    stream_events (mkSource chunks None)
    = body ++ [Complete "Agent finished processing" full] /\
    stream_events (mkSource chunks (Some e)) = body ++ [Error (exn_str e)].
Proof.
  intros Hl. destruct (state_after_total _ initial Hl) as [st' Hs].
  unfold stream_events. simpl.
  rewrite !(drive_all _ _ _ _ Hs). eauto.
Qed.

Lemma failing_source_keeps_events_witness :
  exists body full,
    stream_events (mkSource (snapshots Scenarios.tool_turn) None)
    = body ++ [Complete "Agent finished processing" full] /\
    stream_events (mkSource (snapshots Scenarios.tool_turn)
                     (Some (mkExn OtherError "model timed out")))
    = body ++ [Error "model timed out"].
Proof.
  apply (failing_source_keeps_events (snapshots Scenarios.tool_turn)
           (mkExn OtherError "model timed out")).
  repeat constructor; simpl; discriminate.
Defined.

(** A snapshot whose message list is empty ends the turn: the events of
    the snapshots before it are followed by the [error] of the
    [IndexError], and neither the later snapshots nor the way the source
    ends play any role. *)
Theorem empty_messages_abort (pre rest : list Chunk) (c : Chunk)
    (fail : option Exn) (st : State) :
  state_after initial pre = Some st ->
  messages c = Some [] ->
  stream_events (mkSource (pre ++ c :: rest) fail)
  = concat (per_snapshot initial pre) ++ [Error "list index out of range"].
Proof.
  intros Hs Hm. unfold stream_events. simpl.
  rewrite (drive_app _ _ _ _ _ Hs). simpl.
  unfold process_chunk, messages_step. now rewrite Hm.
Qed.

Lemma empty_messages_abort_witness :
  stream_events
    (mkSource ([Scenarios.says "Hello"] ++ mkChunk (Some []) None None
                 :: [Scenarios.says "Hello world"]) None)
  = [StreamChunk "Hello" "Hello"] ++ [Error "list index out of range"].
Proof.
  apply (empty_messages_abort [Scenarios.says "Hello"] [Scenarios.says "Hello world"]
           (mkChunk (Some []) None None) None
           (mkState "Hello" [] [] [])); reflexivity.
Defined.

End TurnOutcome.

Section SnapshotEvents.
Import Differencer Differencer_facts Client.

Lemma tail_steps_keep (st1 st3 st' : State) (c : Chunk) (evs3 evs4 : list Event) :
  todos_step st1 c = (evs3, st3) ->
  files_step st3 c = (evs4, st') ->
  current_tool_calls st' = current_tool_calls st1 /\
  last_ai_content st' = last_ai_content st1 /\
  Forall only_todos evs3 /\ List.length evs3 <= 1 /\
  Forall only_files evs4 /\ List.length evs4 <= 1.
Proof.
  intros Ht Hf.
  destruct (files_step_spec st3 c) as [E'|(d & _ & _ & E')];
    rewrite E' in Hf; injection Hf as <- <-;
    (destruct (todos_step_spec st1 c) as [E|(t & _ & _ & E)];
     rewrite E in Ht; injection Ht as <- <-); simpl;
    repeat split; auto; repeat constructor.
Qed.

Lemma seen_true (i : PyId) (current : list ToolCall) :
  seen i current = true -> In i (map tool_id current).
Proof.
  unfold seen. intros H. apply existsb_exists in H.
  destruct H as (j & Hj & Heq). apply PyId_eqb_eq in Heq. now subst.
Qed.

Lemma tool_calls_loop_mem (calls current : list ToolCall) (i : PyId) :
  In i (map tool_id (snd (tool_calls_loop calls current))) <->
  In i (map tool_id current) \/ In i (map tool_id calls).
Proof.
  revert current. induction calls as [|tc rest IH]; intros current; simpl.
  - tauto.
  - destruct (seen (tool_id tc) current) eqn:Es.
    + rewrite IH. split; [tauto|]. intros [H|[<-|H]]; auto.
      left. now apply seen_true.
    + specialize (IH (current ++ [tc])).
      destruct (tool_calls_loop rest (current ++ [tc])) as [evs cur'].
      simpl in *. rewrite IH, map_app, in_app_iff. simpl. tauto.
Qed.

Lemma tool_calls_loop_seen (calls current : list ToolCall) :
  (forall i, In i (map tool_id calls) -> In i (map tool_id current)) ->
  tool_calls_loop calls current = ([], current).
Proof.
  induction calls as [|tc rest IH]; intros H; simpl; auto.
  destruct (seen (tool_id tc) current) eqn:Es.
  - apply IH. intros i Hi. apply H. now right.
  - apply seen_false in Es. exfalso. apply Es, H. now left.
Qed.

(** The ids held in [current_tool_calls] after an iteration: those held
    before, and those of the calls it looked at. *)
Lemma process_chunk_calls (st st' : State) (c : Chunk) (evs : list Event) (i : PyId) :
  process_chunk st c = inr (evs, st') ->
  In i (map tool_id (current_tool_calls st')) <->
  In i (map tool_id (current_tool_calls st)) \/ In i (called_ids c).
Proof.
  intros H. apply process_chunk_inv in H.
  destruct H as (evs1 & st1 & evs3 & st3 & evs4 & Hm & Ht & Hf & ->).
  destruct (tail_steps_keep _ _ _ _ _ _ Ht Hf) as (-> & _).
  clear Ht Hf. unfold messages_step in Hm. unfold called_ids.
  destruct (messages c) as [msgs|]; [|injection Hm as <- <-; simpl; tauto].
  destruct (last_item msgs) as [[content calls|j content|content]|];
    try discriminate; try (injection Hm as <- <-; simpl; tauto).
  destruct (content_delta_calls st (content_str content)) as [Hc _].
  destruct (content_delta st (content_str content)) as [evsd std]. simpl in *.
  pose proof (tool_calls_loop_mem calls (current_tool_calls std) i) as Hl.
  destruct (tool_calls_loop calls (current_tool_calls std)) as [evs2 cur].
  injection Hm as <- <-. simpl in *. now rewrite <- Hc.
Qed.

(** Within one snapshot the events come by kind, in the order of the
    loop body, for every turn. *)
Theorem snapshot_events_in_kind_order (src : Source) :
  Forall in_kind_order (per_snapshot initial (snapshots src)).
Proof.
  generalize initial. induction (snapshots src) as [|c rest IH]; intros st; simpl;
    [constructor|].
  destruct (process_chunk st c) as [e|[evs st']] eqn:E; [constructor|].
  constructor; [|apply IH]. clear IH.
  apply process_chunk_inv in E.
  destruct E as (evs1 & st1 & evs3 & st3 & evs4 & Hm & Ht & Hf & ->).
  destruct (tail_steps_keep _ _ _ _ _ _ Ht Hf) as (_ & _ & H3 & L3 & H4 & L4).
  assert (Hr : Forall only_completed (tool_results_step c)).
  { unfold tool_results_step. destruct (messages c); [|constructor].
    apply tool_results_completed. }
  apply messages_step_spec in Hm. destruct Hm as (_ & _ & Hm).
  destruct (chunk_content c) as [s|].
  - destruct Hm as (_ & evsd & evsp & -> & Hp & Hd).
    exists evsd, evsp, (tool_results_step c), evs3, evs4.
    rewrite <- app_assoc. repeat split; auto;
      destruct (content_delta_spec st s) as (evs & Heq & [->|[_ ->]]);
      rewrite Heq in Hd; subst evsd; simpl; repeat constructor.
  - destruct Hm as [-> _].
    exists [], [], (tool_results_step c), evs3, evs4.
    repeat split; auto; simpl; auto.
Qed.

Lemma slice_from_suffix (n : nat) (s : string) :
  exists pre, s = (pre ++ slice_from n s)%string.
Proof.
  revert s. induction n as [|n IH]; intros s.
  - now exists "".
  - destruct s as [|a s]; [now exists ""|].
    destruct (IH s) as [pre Hpre]. exists (String a pre). simpl. congruence.
Qed.

Lemma drive_chunks_suffix (chunks : list Chunk) (st : State) (fail : option Exn) :
  Forall delta_is_suffix (stream_chunks (drive st chunks fail)).
Proof.
  revert st. induction chunks as [|c rest IH]; intros st; simpl.
  - destruct fail; constructor.
  - destruct (process_chunk st c) as [e|[evs st']] eqn:E; [constructor|].
    rewrite stream_chunks_app. apply Forall_app. split; [|apply IH].
    apply process_chunk_chunks in E. destruct (chunk_content c) as [s|].
    + destruct E as [_ ->].
      destruct (content_delta_spec st s) as (evs' & -> & [->|[Hne ->]]);
        repeat constructor; simpl; auto. apply slice_from_suffix.
    + destruct E as [_ ->]. constructor.
Qed.

(** In every stream-chunk event the delta is a non-empty suffix of the
    [fullContent] sent with it, append-only content or not. *)
Theorem delta_closes_full_content (env : Env) (self : AgentService)
    (user_message : string) (thread_id : option string) :
  Forall delta_is_suffix
    (stream_chunks (fst (stream_response env self user_message thread_id))).
Proof.
  unfold stream_response. destruct (agent self) as [a|]; simpl; [|constructor].
  apply drive_chunks_suffix.
Qed.

(** A snapshot delivered a second time in a row yields nothing but its
    tool results again: no stream-chunk, no tool call, no [todos], no
    [files], and the loop state does not move. *)
Theorem repeated_snapshot_is_quiet (st st' : State) (c : Chunk) (evs : list Event) :
  process_chunk st c = inr (evs, st') ->
  process_chunk st' c = inr (tool_results_step c, st').
Proof.
  intros H.
  pose proof (process_chunk_chunks _ _ _ _ H) as Hc.
  pose proof (process_chunk_todos _ _ _ _ H) as [Ht _].
  pose proof (process_chunk_files _ _ _ _ H) as [Hf _].
  pose proof (fun i => process_chunk_calls _ _ _ _ i H) as Hi.
  assert (Hm : messages_step st' c = inr ([], st')).
  { unfold process_chunk in H.
    unfold messages_step, chunk_content, called_ids in *.
    destruct (messages c) as [msgs|]; auto.
    destruct (last_item msgs) as [[content calls|j content|content]|]; auto;
      [|discriminate].
    destruct Hc as [Hc _]. unfold content_delta.
    rewrite Hc, String.eqb_refl.
    rewrite (tool_calls_loop_seen calls (current_tool_calls st')).
    - simpl. now destruct st'.
    - intros i Hin. apply Hi. now right. }
  clear H. unfold process_chunk. rewrite Hm. unfold todos_step, files_step.
  destruct (todos c) as [t|]; destruct (files c) as [d|]; simpl in *;
    rewrite ?Ht, ?Hf, ?(list_eqb_refl _ ToDo_eqb_eq), ?(list_eqb_refl _ String.eqb_eq);
    simpl; rewrite ?Hf, ?(list_eqb_refl _ String.eqb_eq); simpl;
    rewrite ?app_nil_r; reflexivity.
Qed.

Lemma repeated_snapshot_is_quiet_witness :
  process_chunk (mkState "Hello" [] [] []) (Scenarios.says "Hello")
  = inr (tool_results_step (Scenarios.says "Hello"), mkState "Hello" [] [] []).
Proof.
  apply (repeated_snapshot_is_quiet initial (mkState "Hello" [] [] [])
           (Scenarios.says "Hello") [StreamChunk "Hello" "Hello"]).
  reflexivity.
Defined.

End SnapshotEvents.

Section ClientView.
Import Differencer Differencer_facts Client.

Lemma list_eqb_neq {A} (eqb : A -> A -> bool) :
  (forall a b, eqb a b = true <-> a = b) ->
  forall xs ys, xs <> ys -> list_eqb eqb xs ys = false.
Proof.
  intros Heq xs ys Hne. apply not_true_iff_false. intros H.
  now apply (list_eqb_eq eqb Heq) in H.
Qed.

(** The converse of no-op suppression: when two consecutive snapshots
    carry different [todos] values, exactly one [todos] event with the
    whole new value is yielded between them; likewise for [files] when
    the key lists differ. *)
Theorem change_is_reported (src : Source) (i : nat) (c1 c2 : Chunk)
    (evs : list Event) :
  nth_error (snapshots src) i = Some c1 ->
  nth_error (snapshots src) (S i) = Some c2 ->
  nth_error (per_snapshot initial (snapshots src)) (S i) = Some evs ->
  (forall t1 t2, todos c1 = Some t1 -> todos c2 = Some t2 -> t1 <> t2 ->
     filter is_todos evs = [TodosEv t2]) /\
  (forall d1 d2, files c1 = Some d1 -> files c2 = Some d2 -> keys d1 <> keys d2 ->
     filter is_files evs = [FilesEv (keys d2)]).
Proof.
  intros H1 H2 H3.
  destruct (per_snapshot_consecutive _ _ _ _ _ _ H1 H2 H3)
    as (st0 & evs1 & st1 & st2 & E1 & E2).
  split.
  - intros t1 t2 Ht1 Ht2 Hne.
    destruct (process_chunk_todos _ _ _ _ E1) as [Hl _].
    destruct (process_chunk_todos _ _ _ _ E2) as [_ ->].
    rewrite Ht2, Hl, Ht1. simpl.
    rewrite (list_eqb_neq _ ToDo_eqb_eq); auto.
  - intros d1 d2 Hd1 Hd2 Hne.
    destruct (process_chunk_files _ _ _ _ E1) as [Hl _].
    destruct (process_chunk_files _ _ _ _ E2) as [_ ->].
    rewrite Hd2, Hl, Hd1. simpl.
    rewrite (list_eqb_neq _ String.eqb_eq); auto.
Qed.

Lemma change_is_reported_witness :
  filter is_files [FilesEv ["b.md"; "a.md"]] = [FilesEv (keys Scenarios.files_ba)].
Proof.
  destruct (change_is_reported Scenarios.reorder_turn 0
              (mkChunk (Some [Scenarios.human]) None (Some Scenarios.files_ab))
              (mkChunk (Some [Scenarios.human]) None (Some Scenarios.files_ba))
              [FilesEv ["b.md"; "a.md"]] eq_refl eq_refl eq_refl) as [_ Hf].
  apply (Hf Scenarios.files_ab Scenarios.files_ba eq_refl eq_refl).
  simpl. discriminate.
Defined.

Lemma client_todos_filter (evs : list Event) (held : list ToDo) :
  client_todos held evs = client_todos held (filter is_todos evs).
Proof.
  revert held. induction evs as [|e evs IH]; intros held; simpl; auto.
  destruct e; simpl; apply IH.
Qed.

Lemma client_files_filter (evs : list Event) (held : list string) :
  client_files held evs = client_files held (filter is_files evs).
Proof.
  revert held. induction evs as [|e evs IH]; intros held; simpl; auto.
  destruct e; simpl; apply IH.
Qed.

(** After the events of an iteration the client holds what the loop
    has recorded. *)
Lemma process_chunk_client (st st' : State) (c : Chunk) (evs : list Event) :
  process_chunk st c = inr (evs, st') ->
  client_todos (last_todos st) evs = last_todos st' /\
  client_files (last_files st) evs = last_files st'.
Proof.
  intros H.
  destruct (process_chunk_todos _ _ _ _ H) as [Ht Ft].
  destruct (process_chunk_files _ _ _ _ H) as [Hf Ff].
  rewrite client_todos_filter, client_files_filter, Ft, Ff, Ht, Hf. split.
  - destruct (todos c) as [t|]; simpl; auto.
    destruct (list_eqb ToDo_eqb t (last_todos st)) eqn:E; simpl; auto.
    apply (list_eqb_eq _ ToDo_eqb_eq) in E. auto.
  - destruct (files c) as [d|]; simpl; auto.
    destruct (list_eqb String.eqb (keys d) (last_files st)) eqn:E; simpl; auto.
    apply (list_eqb_eq _ String.eqb_eq) in E. auto.
Qed.

Lemma drive_client (chunks : list Chunk) (st : State) (fail : option Exn) :
  Forall has_last chunks ->
  client_todos (last_todos st) (drive st chunks fail)
  = final_todos (last_todos st) chunks /\
  client_files (last_files st) (drive st chunks fail)
  = final_files (last_files st) chunks.
Proof.
  revert st. induction chunks as [|c rest IH]; intros st Hl; simpl.
  - destruct fail; auto.
  - inversion Hl as [|? ? Hc Hrest]; subst.
    destruct (process_chunk_total st c Hc) as (evs & st' & E). rewrite E.
    destruct (process_chunk_client _ _ _ _ E) as [Ht Hf].
    destruct (process_chunk_todos _ _ _ _ E) as [Ht' _].
    destruct (process_chunk_files _ _ _ _ E) as [Hf' _].
    unfold client_todos, client_files in *. rewrite !fold_left_app, Ht, Hf.
    rewrite <- Ht', <- Hf'. now apply IH.
Qed.

(** Replacement events are enough for a client: starting from empty
    lists and replacing its todo list and its file list by the [data] of
    each [todos] and [files] event, a client ends the turn holding the
    [todos] value and the file names of the last snapshot that carried
    them, whether the turn ends in [complete] or in [error]. *)
Theorem client_holds_last_values (src : Source) :
  Forall has_last (snapshots src) ->
  client_todos [] (stream_events src) = final_todos [] (snapshots src) /\
  client_files [] (stream_events src) = final_files [] (snapshots src).
Proof. intros H. exact (drive_client _ initial _ H). Qed.

Lemma client_holds_last_values_witness :
  client_todos [] (stream_events Scenarios.steady_turn) = [mkToDo "outline" "pending"] /\
  client_files [] (stream_events Scenarios.reorder_turn) = ["b.md"; "a.md"].
Proof.
  split.
  - apply (client_holds_last_values Scenarios.steady_turn).
    repeat constructor; simpl; discriminate.
  - apply (client_holds_last_values Scenarios.reorder_turn).
    repeat constructor; simpl; discriminate.
Defined.

Lemma drive_pending_mem (chunks : list Chunk) (st : State) (fail : option Exn)
    (i : PyId) :
  Forall has_last chunks ->
  In i (map tool_id (current_tool_calls st) ++ pending_ids (drive st chunks fail)) <->
  In i (map tool_id (current_tool_calls st)) \/
  exists c, In c chunks /\ In i (called_ids c).
Proof.
  revert st. induction chunks as [|c rest IH]; intros st Hl; simpl.
  - assert (pending_ids (match fail with
                         | Some e => [Error (exn_str e)]
                         | None => [Complete "Agent finished processing"
                                      (last_ai_content st)]
                         end) = []) as -> by now destruct fail.
    rewrite app_nil_r. split; [tauto|]. intros [H|(c & [] & _)]. exact H.
  - inversion Hl as [|? ? Hc Hrest]; subst.
    destruct (process_chunk_total st c Hc) as (evs & st' & E). rewrite E.
    destruct (process_chunk_ids _ _ _ _ E) as [Hids _].
    rewrite pending_ids_app, app_assoc, <- Hids, (IH st' Hrest).
    rewrite (process_chunk_calls _ _ _ _ i E). split.
    + intros [[H|H]|(c' & Hin & H)]; eauto.
    + intros [H|(c' & [<-|Hin] & H)]; eauto.
Qed.

(** Every tool call the loop looks at is announced, once: the ids of
    the [tool-call] events of a turn are pairwise distinct, and they are
    exactly the ids of the tool calls of the assistant messages that
    close a snapshot. *)
Theorem every_call_announced_once (src : Source) :
  Forall has_last (snapshots src) ->
  NoDup (pending_ids (stream_events src)) /\
  forall i, In i (pending_ids (stream_events src)) <->
            exists c, In c (snapshots src) /\ In i (called_ids c).
Proof.
  intros Hl. split.
  - apply (drive_pending_NoDup _ initial). constructor.
  - intros i. pose proof (drive_pending_mem _ initial (failure src) i Hl) as H.
    simpl in H. unfold stream_events. rewrite H. split; [|tauto].
    now intros [[]|H'].
Qed.

Lemma every_call_announced_once_witness :
  NoDup (pending_ids (stream_events Scenarios.tool_turn)) /\
  forall i, In i (pending_ids (stream_events Scenarios.tool_turn)) <->
            exists c, In c (snapshots Scenarios.tool_turn) /\ In i (called_ids c).
Proof.
  apply (every_call_announced_once Scenarios.tool_turn).
  repeat constructor; simpl; discriminate.
Defined.

End ClientView.

(* ================================================================= *)
(** ** More on the command loop *)

Section Gate.

Ltac frame_type data :=
  let t := fresh "t" in
  destruct (data_type data) as [t|]; cbn [get option_map];
  [ repeat (match goal with
            | |- context [String.eqb ?k t] =>
                destruct (String.eqb_spec k t); cbv iota
            end); subst; simpl
  | simpl ].

Lemma not_init_before_init (env : Env) (data : Frame) :
  data_type data <> Some "init" ->
  exists msg, websocket_step env None data = ([Error msg], None).
Proof.
  intros Hne. unfold websocket_step. frame_type data; try congruence; eauto.
Qed.

(** Before [init] nothing but [init] is served: any other frame,
    whatever its type, is answered by exactly one [error] event and the
    connection still holds no service. *)
Theorem commands_before_init (env : Env) (data : Frame) :
  data_type data <> Some "init" ->
  exists msg, websocket_step env None data = ([Error msg], None).
Proof.
  intros Hne. unfold websocket_step.
  frame_type data; try congruence; eauto.
Qed.

Lemma commands_before_init_witness :
  exists msg,
    websocket_step Scenarios.env_ok None (Frames.message_frame "Hello")
    = ([Error msg], None).
Proof.
  apply (commands_before_init Scenarios.env_ok (Frames.message_frame "Hello")).
  simpl. discriminate.
Defined.

(** Every frame other than a [message] is answered by exactly one
    event, in every state of the session. *)
Theorem one_answer_per_command (env : Env) (agent_service : option AgentService)
    (data : Frame) :
  data_type data <> Some "message" ->
  List.length (fst (websocket_step env agent_service data)) = 1.
Proof.
  intros Hne. unfold websocket_step. frame_type data; try congruence; auto.
  - destruct (negb (truthy (data_project_path data))); auto.
    destruct (__init__ env _ _); auto.
  - destruct agent_service as [svc|]; auto.
    destruct (negb (truthy (data_project_path data))); auto.
    destruct (change_project env svc _) as [svc' [e|]]; auto.
  - destruct agent_service as [svc|]; auto.
    destruct (negb (truthy (data_mode data))); auto.
    destruct (change_mode env svc _) as [svc' [e|]]; auto.
    destruct (exn_class e); auto.
  - destruct agent_service as [svc|]; auto.
Qed.

Lemma one_answer_per_command_witness :
  List.length (fst (websocket_step Scenarios.env_rebuild_fails Scenarios.ready
                      (Scenarios.change_mode_frame "academic"))) = 1.
Proof.
  apply (one_answer_per_command Scenarios.env_rebuild_fails Scenarios.ready
           (Scenarios.change_mode_frame "academic")).
  simpl. discriminate.
Defined.



Lemma websocket_step_stays_ready (env : Env) (svc : AgentService) (data : Frame) :
  exists svc', snd (websocket_step env (Some svc) data) = Some svc'.
Proof.
  unfold websocket_step. frame_type data; eauto.
  - destruct (negb (truthy (data_project_path data))); simpl; eauto.
    destruct (__init__ env _ _); simpl; eauto.
  - destruct (String.eqb (get (data_content data) "") ""); simpl; eauto.
    destruct (stream_response env svc _ _); simpl; eauto.
  - destruct (negb (truthy (data_project_path data))); simpl; eauto.
    destruct (change_project env svc _) as [svc' [e|]]; simpl; eauto.
  - destruct (negb (truthy (data_mode data))); simpl; eauto.
    destruct (change_mode env svc _) as [svc' [e|]]; simpl; eauto.
    destruct (exn_class e); simpl; eauto.
Qed.

(** No sequence of frames takes the service away from a connection that
    holds one. *)
Theorem ready_is_stable (inbox : list (Env * Frame)) (svc : AgentService) :
  exists svc', snd (websocket_endpoint (Some svc) inbox) = Some svc'.
Proof.
  revert svc. induction inbox as [|[env data] rest IH]; intros svc; simpl; eauto.
  destruct (websocket_step_stays_ready env svc data) as [svc1 H1].
  destruct (websocket_step env (Some svc) data) as [sent s1]. simpl in H1. subst s1.
  destruct (IH svc1) as [svc2 H2].
  destruct (websocket_endpoint (Some svc1) rest) as [sent' final]. eauto.
Qed.

(** Only [init], [change_project] and [change_mode] touch the service:
    every other frame leaves it exactly as it was. *)
Theorem other_frames_keep_service (env : Env) (agent_service : option AgentService)
    (data : Frame) :
  data_type data <> Some "init" ->
  data_type data <> Some "change_project" ->
  data_type data <> Some "change_mode" ->
  snd (websocket_step env agent_service data) = agent_service.
Proof.
  intros H1 H2 H3. unfold websocket_step. frame_type data; try congruence; auto.
  - destruct agent_service as [svc|]; auto.
    destruct (String.eqb (get (data_content data) "") ""); auto.
    destruct (stream_response env svc _ _); auto.
  - destruct agent_service as [svc|]; auto.
Qed.

Lemma other_frames_keep_service_witness :
  snd (websocket_step Scenarios.env_ok Scenarios.ready Frames.get_mode_frame)
  = Scenarios.ready.
Proof.
  apply (other_frames_keep_service Scenarios.env_ok Scenarios.ready
           Frames.get_mode_frame); simpl; discriminate.
Defined.

End Gate.

(* ================================================================= *)
(** ** Building and rebuilding the agent *)

Section Rebuild.

Lemma initialize_agent_tools (env : Env) (self self' : AgentService) :
  _initialize_agent env self = (self', None) ->
  exists a,
    agent self' = Some a /\
    map tool_name (agent_tools a)
    = ["read_real_file"; "write_real_file"; "list_real_files"; "edit_real_file"] /\
    map subagent_name (agent_subagents a)
    = ["planning-agent"; "writing-agent"; "editing-agent"] /\
    map (fun s => map tool_name (subagent_tools s)) (agent_subagents a)
    = [ ["read_real_file"; "write_real_file"; "list_real_files"];
        ["read_real_file"; "write_real_file"; "edit_real_file"];
        ["read_real_file"; "edit_real_file"] ] /\
    Forall (fun t => tool_root t = resolve env (project_path self))
      (agent_tools a ++ flat_map subagent_tools (agent_subagents a)).
Proof.
  unfold _initialize_agent. destruct (get_default_model env) as [e|model];
    [intros H; discriminate|].
  match goal with |- context [async_create_deep_agent env ?b] =>
    destruct (async_create_deep_agent env b) as [e|] end;
    intros H; [discriminate|]. injection H as <-. simpl.
  eexists. split; [reflexivity|]. simpl. repeat split.
  repeat constructor.
Qed.

(** What [_initialize_agent] installs: the four file tools and the
    three subagents, each with the tools its configuration names, all
    scoped to the resolved project root, whatever the mode string. *)
Theorem subagents_get_their_tools (env : Env) (self self' : AgentService) :
  _initialize_agent env self = (self', None) ->
  exists a,
    agent self' = Some a /\
    map tool_name (agent_tools a)
    = ["read_real_file"; "write_real_file"; "list_real_files"; "edit_real_file"] /\
    map subagent_name (agent_subagents a)
    = ["planning-agent"; "writing-agent"; "editing-agent"] /\
    map (fun s => map tool_name (subagent_tools s)) (agent_subagents a)
    = [ ["read_real_file"; "write_real_file"; "list_real_files"];
        ["read_real_file"; "write_real_file"; "edit_real_file"];
        ["read_real_file"; "edit_real_file"] ] /\
    Forall (fun t => tool_root t = resolve env (project_path self))
      (agent_tools a ++ flat_map subagent_tools (agent_subagents a)).
Proof.
  unfold _initialize_agent. intros H.
  destruct (get_default_model env) as [e|model]; [discriminate|].
  match type of H with context [async_create_deep_agent env ?b] =>
    destruct (async_create_deep_agent env b) as [e|] end; [discriminate|].
  injection H as <-. eexists. split; [reflexivity|].
  cbn. repeat split. repeat constructor.
Qed.

Lemma subagents_get_their_tools_witness :
  exists a,
    agent Scenarios.novel_service = Some a /\
    map tool_name (agent_tools a)
    = ["read_real_file"; "write_real_file"; "list_real_files"; "edit_real_file"] /\
    map subagent_name (agent_subagents a)
    = ["planning-agent"; "writing-agent"; "editing-agent"] /\
    map (fun s => map tool_name (subagent_tools s)) (agent_subagents a)
    = [ ["read_real_file"; "write_real_file"; "list_real_files"];
        ["read_real_file"; "write_real_file"; "edit_real_file"];
        ["read_real_file"; "edit_real_file"] ] /\
    Forall (fun t => tool_root t = "/books/novel")
      (agent_tools a ++ flat_map subagent_tools (agent_subagents a)).
Proof.
  apply (subagents_get_their_tools Scenarios.env_ok
           (mkAgentService "/books/novel" "fiction" None) Scenarios.novel_service).
  reflexivity.
Defined.

Lemma is_in_modes (m : string) :
  is_in m get_available_modes = true ->
  m = "fiction" \/ m = "non-fiction" \/ m = "academic".
Proof.
  unfold is_in, get_available_modes. simpl.
  destruct (String.eqb_spec m "fiction"); auto.
  destruct (String.eqb_spec m "non-fiction"); auto.
  destruct (String.eqb_spec m "academic"); auto. discriminate.
Qed.

(** The mode decides the prompts: two recognized modes with the same
    main prompt, or with the same prompt for one of the subagents, are
    the same mode; and the fiction prompt is selected exactly by
    ["fiction"] and by the strings that are no mode. *)
Theorem prompts_tell_modes_apart (m1 m2 : string) :
  is_in m1 get_available_modes = true ->
  is_in m2 get_available_modes = true ->
  (get_main_agent_prompt m1 = get_main_agent_prompt m2 -> m1 = m2) /\
  (forall k,
     nth_error (map sub_prompt (get_subagent_configs m1)) k
     = nth_error (map sub_prompt (get_subagent_configs m2)) k ->
     k < 3 -> m1 = m2) /\
  (get_main_agent_prompt m1 = FICTION_MAIN_AGENT <-> m1 = "fiction").
Proof.
  intros H1 H2. apply is_in_modes in H1, H2.
  destruct H1 as [-> | [-> | ->]], H2 as [-> | [-> | ->]]; repeat split;
    try reflexivity; try discriminate;
    try (intros k Hk Hlt;
         destruct k as [|[|[|k]]]; simpl in Hk; try discriminate; lia).
Qed.

Lemma prompts_tell_modes_apart_witness :
  (get_main_agent_prompt "academic" = get_main_agent_prompt "non-fiction" ->
   "academic" = "non-fiction") /\
  (forall k,
     nth_error (map sub_prompt (get_subagent_configs "academic")) k
     = nth_error (map sub_prompt (get_subagent_configs "non-fiction")) k ->
     k < 3 -> "academic" = "non-fiction") /\
  (get_main_agent_prompt "academic" = FICTION_MAIN_AGENT <-> "academic" = "fiction").
Proof.
  apply (prompts_tell_modes_apart "academic" "non-fiction"); reflexivity.
Defined.

Lemma is_in_true_negb (m : string) :
  is_in m get_available_modes = true ->
  negb (is_in m get_available_modes) = false.
Proof. now intros ->. Qed.

(** A [change_mode] to a recognized mode, when the rebuild does not
    raise, is answered by [mode_changed]; the service then stores the
    mode, keeps its project path, and holds a handle built with the main
    prompt of the mode and tools on the same project root. *)
Theorem change_mode_rebuilds (env : Env) (svc : AgentService) (data : Frame)
    (m : string) :
  data_type data = Some "change_mode" ->
  data_mode data = Some m ->
  is_in m get_available_modes = true ->
  OPENROUTER_API_KEY env <> "" ->
  (forall a, async_create_deep_agent env a = None) ->
  exists svc' a,
    websocket_step env (Some svc) data = ([ModeChanged m], Some svc') /\
    author_mode svc' = m /\
    project_path svc' = project_path svc /\
    agent svc' = Some a /\
    agent_instructions a = get_main_agent_prompt m /\
    map sub_prompt (get_subagent_configs m) = map subagent_prompt (agent_subagents a) /\
    Forall (fun t => tool_root t = resolve env (project_path svc)) (agent_tools a).
Proof.
  intros Ht Hm Hin Hk Hc. unfold websocket_step. rewrite Ht, Hm. simpl.
  assert (Hne : m <> "").
  { intros ->. discriminate. }
  destruct (String.eqb_spec m ""); [contradiction|]. simpl.
  unfold change_mode. rewrite (is_in_true_negb m Hin).
  pose proof (initialize_agent_returns env
                (mkAgentService (project_path svc) m (agent svc)) Hk Hc) as Hr.
  destruct (_initialize_agent env _) as [svc' r] eqn:E. simpl in Hr. subst r.
  pose proof (initialize_agent_spec _ _ _ _ E) as (Hp & Ha & a & Hag & Hi).
  destruct (initialize_agent_tools _ _ _ E) as (a' & Hag' & _ & _ & _ & Hroots).
  rewrite Hag in Hag'. injection Hag' as <-.
  exists svc', a. repeat split; auto.
  - clear -E Hag. unfold _initialize_agent in E.
    destruct (get_default_model env); [discriminate|].
    match type of E with context [async_create_deep_agent env ?b] =>
      destruct (async_create_deep_agent env b) end; [discriminate|].
    injection E as <-. simpl in Hag. injection Hag as <-. reflexivity.
  - apply Forall_app in Hroots. apply Hroots.
Qed.

Lemma change_mode_rebuilds_witness :
  exists svc' a,
    websocket_step Scenarios.env_ok (Some Scenarios.novel_service)
      (Scenarios.change_mode_frame "academic")
    = ([ModeChanged "academic"], Some svc') /\
    author_mode svc' = "academic" /\
    project_path svc' = "/books/novel" /\
    agent svc' = Some a /\
    agent_instructions a = ACADEMIC_MAIN_AGENT /\
    [ACADEMIC_PLANNING_AGENT; ACADEMIC_WRITING_AGENT; ACADEMIC_EDITING_AGENT]
    = map subagent_prompt (agent_subagents a) /\
    Forall (fun t => tool_root t = "/books/novel") (agent_tools a).
Proof.
  apply (change_mode_rebuilds Scenarios.env_ok Scenarios.novel_service
           (Scenarios.change_mode_frame "academic") "academic");
    try reflexivity; simpl; discriminate.
Defined.

End Rebuild.

Section Answers.

Ltac frame_type data :=
  let t := fresh "t" in
  destruct (data_type data) as [t|]; cbn [get option_map];
  [ repeat (match goal with
            | |- context [String.eqb ?k t] =>
                destruct (String.eqb_spec k t); cbv iota
            end); subst; simpl
  | simpl ].

Lemma positive_answer_mode (env : Env) (agent_service : option AgentService)
    (data : Frame) (m : string) :
  fst (websocket_step env agent_service data) = [ModeChanged m] \/
  (exists p, fst (websocket_step env agent_service data) = [Initialized p m]) ->
  exists svc, snd (websocket_step env agent_service data) = Some svc /\
              author_mode svc = m.
Proof.
  unfold websocket_step. frame_type data.
  - destruct (negb (truthy (data_project_path data))); simpl;
      [intros [H|[p H]]; discriminate|].
    destruct (__init__ env _ _) as [e|svc] eqn:E; simpl;
      intros [H|[p H]]; try discriminate.
    injection H as _ <-. exists svc. split; auto. now apply init_spec in E.
  - destruct agent_service as [svc|]; simpl; [|intros [H|[p H]]; discriminate].
    destruct (String.eqb (get (data_content data) "") ""); simpl;
      [intros [H|[p H]]; discriminate|].
    destruct (stream_response env svc _ _); simpl.
    intros [H|[p H]]; discriminate.
  - destruct agent_service as [svc|]; simpl; [|intros [H|[p H]]; discriminate].
    destruct (negb (truthy (data_project_path data))); simpl;
      [intros [H|[p H]]; discriminate|].
    destruct (change_project env svc _) as [svc' [e|]]; simpl;
      intros [H|[p H]]; discriminate.
  - destruct agent_service as [svc|]; simpl; [|intros [H|[p H]]; discriminate].
    destruct (negb (truthy (data_mode data))); simpl;
      [intros [H|[p H]]; discriminate|].
    destruct (change_mode env svc _) as [svc' [e|]] eqn:E; simpl.
    + destruct (exn_class e); simpl; intros [H|[p H]]; discriminate.
    + intros [H|[p H]]; [|discriminate]. injection H as <-. exists svc'.
      split; auto. unfold change_mode in E.
      destruct (negb (is_in (get (data_mode data) "") get_available_modes));
        [discriminate|].
      now apply initialize_agent_spec in E.
  - destruct agent_service as [svc|]; simpl; intros [H|[p H]]; discriminate.
  - intros [H|[p H]]; discriminate.
  - intros [H|[p H]]; discriminate.
Qed.

(** A positive answer tells the mode the service is in: after a frame
    answered by [mode_changed] or by [initialized], a [get_mode] frame
    is answered by [current_mode] with the mode of that answer. *)
Theorem reported_mode_is_current (env env' : Env)
    (agent_service : option AgentService) (data : Frame) (m : string) :
  fst (websocket_step env agent_service data) = [ModeChanged m] \/
  (exists p, fst (websocket_step env agent_service data) = [Initialized p m]) ->
  websocket_step env' (snd (websocket_step env agent_service data))
    Frames.get_mode_frame
  = ([CurrentMode m], snd (websocket_step env agent_service data)).
Proof.
  intros H. destruct (positive_answer_mode _ _ _ _ H) as (svc & -> & <-).
  reflexivity.
Qed.

Lemma reported_mode_is_current_witness :
  websocket_step Scenarios.env_rebuild_fails
    (snd (websocket_step Scenarios.env_ok None
            (Scenarios.init_frame "/books/verse" (Some "poetry"))))
    Frames.get_mode_frame
  = ([CurrentMode "poetry"],
     snd (websocket_step Scenarios.env_ok None
            (Scenarios.init_frame "/books/verse" (Some "poetry")))).
Proof.
  apply (reported_mode_is_current Scenarios.env_ok Scenarios.env_rebuild_fails None
           (Scenarios.init_frame "/books/verse" (Some "poetry")) "poetry").
  right. exists "/books/verse". reflexivity.
Defined.

End Answers.

Section RebuildOutcomes.

(** A [change_project] whose rebuild does not raise is answered by
    [project_changed] with the path as sent; the service then stores
    the resolved path, keeps its mode, and holds a handle with the
    prompt of that mode whose tools, and those of its subagents, are all
    scoped to the new project. *)
Theorem change_project_rebuilds (env : Env) (svc : AgentService) (data : Frame)
    (p : string) :
  data_type data = Some "change_project" ->
  data_project_path data = Some p ->
  p <> "" ->
  OPENROUTER_API_KEY env <> "" ->
  (forall a, async_create_deep_agent env a = None) ->
  exists svc' a,
    websocket_step env (Some svc) data = ([ProjectChanged p], Some svc') /\
    project_path svc' = resolve env p /\
    author_mode svc' = author_mode svc /\
    agent svc' = Some a /\
    agent_instructions a = get_main_agent_prompt (author_mode svc) /\
    Forall (fun t => tool_root t = resolve env (resolve env p))
      (agent_tools a ++ flat_map subagent_tools (agent_subagents a)).
Proof.
  intros Ht Hp Hne Hk Hc. unfold websocket_step. rewrite Ht, Hp. simpl.
  destruct (String.eqb_spec p ""); [contradiction|]. simpl.
  unfold change_project.
  pose proof (initialize_agent_returns env
                (mkAgentService (resolve env p) (author_mode svc) (agent svc)) Hk Hc) as Hr.
  destruct (_initialize_agent env _) as [svc' r] eqn:E. simpl in Hr. subst r.
  pose proof (initialize_agent_spec _ _ _ _ E) as (Hpp & Ha & a & Hag & Hi).
  destruct (initialize_agent_tools _ _ _ E) as (a' & Hag' & _ & _ & _ & Hroots).
  rewrite Hag in Hag'. injection Hag' as <-.
  exists svc', a. repeat split; auto.
Qed.

Lemma change_project_rebuilds_witness :
  exists svc' a,
    websocket_step Scenarios.env_ok (Some Scenarios.novel_service)
      (Scenarios.change_project_frame "/books/memoir")
    = ([ProjectChanged "/books/memoir"], Some svc') /\
    project_path svc' = "/books/memoir" /\
    author_mode svc' = "fiction" /\
    agent svc' = Some a /\
    agent_instructions a = FICTION_MAIN_AGENT /\
    Forall (fun t => tool_root t = "/books/memoir")
      (agent_tools a ++ flat_map subagent_tools (agent_subagents a)).
Proof.
  apply (change_project_rebuilds Scenarios.env_ok Scenarios.novel_service
           (Scenarios.change_project_frame "/books/memoir") "/books/memoir");
    try reflexivity; simpl; discriminate.
Defined.

(** A [change_mode] to a recognized mode whose rebuild raises is
    answered by one [error], with the text of a [ValueError] sent as it
    is and any other text after ["Failed to change mode: "]; the handle
    is the old one, but the service already stores the new mode. *)
Theorem failed_mode_rebuild_keeps_new_mode (env : Env) (svc : AgentService)
    (data : Frame) (m : string) (e : Exn) :
  data_type data = Some "change_mode" ->
  data_mode data = Some m ->
  is_in m get_available_modes = true ->
  OPENROUTER_API_KEY env <> "" ->
  (forall a, async_create_deep_agent env a = Some e) ->
  websocket_step env (Some svc) data
  = ([Error match exn_class e with
            | ValueError => exn_str e
            | _ => "Failed to change mode: " ++ exn_str e
            end],
     Some (mkAgentService (project_path svc) m (agent svc))).
Proof.
  intros Ht Hm Hin Hk Hc. unfold websocket_step. rewrite Ht, Hm. simpl.
  assert (Hne : m <> "") by (intros ->; discriminate).
  destruct (String.eqb_spec m ""); [contradiction|]. simpl.
  unfold change_mode. rewrite (is_in_true_negb m Hin).
  unfold _initialize_agent, get_default_model.
  destruct (String.eqb_spec (OPENROUTER_API_KEY env) ""); [contradiction|].
  rewrite Hc. simpl. now destruct (exn_class e).
Qed.

Lemma failed_mode_rebuild_keeps_new_mode_witness :
  websocket_step Scenarios.env_rebuild_fails (Some Scenarios.novel_service)
    (Scenarios.change_mode_frame "academic")
  = ([Error "Failed to change mode: agent construction failed"],
     Some (mkAgentService "/books/novel" "academic" (Some Scenarios.novel_agent))).
Proof.
  apply (failed_mode_rebuild_keeps_new_mode Scenarios.env_rebuild_fails
           Scenarios.novel_service (Scenarios.change_mode_frame "academic")
           "academic" (mkExn OtherError "agent construction failed"));
    try reflexivity. simpl. discriminate.
Defined.

Lemma without_key_step (env : Env) (data : Frame) :
  OPENROUTER_API_KEY env = "" ->
  exists msg, websocket_step env None data = ([Error msg], None).
Proof.
  intros Hk.
  destruct (option_map (String.eqb "init") (data_type data)) as [[|]|] eqn:Ei.
  - unfold websocket_step. rewrite Ei. simpl.
    destruct (negb (truthy (data_project_path data))); eauto.
    unfold __init__, _initialize_agent, get_default_model. rewrite Hk. simpl. eauto.
  - apply not_init_before_init. intros Heq. rewrite Heq in Ei. discriminate.
  - apply not_init_before_init. intros Heq. rewrite Heq in Ei. discriminate.
Qed.

(** Without an API key a connection never comes to hold a service:
    whatever frames arrive, each is answered by [error] events only and
    the connection ends as it started. *)
Theorem without_key_no_service (inbox : list (Env * Frame)) :
  Forall Frames.without_key inbox ->
  snd (websocket_endpoint None inbox) = None /\
  Forall Frames.only_error (fst (websocket_endpoint None inbox)) /\
  List.length (fst (websocket_endpoint None inbox)) = List.length inbox.
Proof.
  induction 1 as [|[env data] rest Hk _ IH]; simpl.
  - repeat split. constructor.
  - destruct (without_key_step env data Hk) as [msg ->].
    destruct (websocket_endpoint None rest) as [sent' final]. simpl in *.
    destruct IH as (-> & Hs & Hl). repeat split; auto.
    constructor; [exact I | exact Hs].
Qed.

Lemma without_key_no_service_witness :
  snd (websocket_endpoint None
         [(Frames.env_no_key, Scenarios.init_frame "/books/novel" None);
          (Frames.env_no_key, Frames.message_frame "Hello")]) = None /\
  Forall Frames.only_error
    (fst (websocket_endpoint None
            [(Frames.env_no_key, Scenarios.init_frame "/books/novel" None);
             (Frames.env_no_key, Frames.message_frame "Hello")])) /\
  List.length
    (fst (websocket_endpoint None
            [(Frames.env_no_key, Scenarios.init_frame "/books/novel" None);
             (Frames.env_no_key, Frames.message_frame "Hello")])) = 2.
Proof.
  apply (without_key_no_service
           [(Frames.env_no_key, Scenarios.init_frame "/books/novel" None);
            (Frames.env_no_key, Frames.message_frame "Hello")]).
  repeat constructor.
Defined.

End RebuildOutcomes.

(* ================================================================= *)
(** ** Substrings, counts and replacements *)

Section PyStrFacts.
Import PyStr.



Lemma prefix_append (p rest : string) : String.prefix p (p ++ rest) = true.
Proof.
  induction p as [|a p IH]; simpl; [now destruct rest|].
  destruct (ascii_dec a a); [exact IH | contradiction].
Qed.

Lemma prefix_empty (s : string) : String.prefix "" s = true.
Proof. now destruct s. Qed.

(** [old in s] holds exactly when [s] splits around a copy of [old]. *)
Lemma occurs_iff (old s : string) :
  occurs old s = true <-> exists pre post, s = (pre ++ old ++ post)%string.
Proof.
  split.
  - induction s as [|c s IH]; simpl.
    + rewrite orb_false_r. intros H. exists "", "". simpl.
      destruct old; [reflexivity | discriminate].
    + intros H. apply orb_true_iff in H. destruct H as [H|H].
      * exists "", (slice_from (String.length old) (String c s)).
        simpl (""%string ++ _)%string. symmetry. now apply prefix_slice.
      * destruct (IH H) as (pre & post & ->). now exists (String c pre), post.
  - intros (pre & post & ->). induction pre as [|c pre IH]; simpl.
    + pose proof (prefix_append old post) as Hp.
      destruct (old ++ post)%string; cbn [occurs]; now rewrite Hp.
    + rewrite IH. apply orb_true_r.
Qed.

(** Replacing the leftmost occurrence splits the text around it. *)
Lemma replace_first_spec (old new s : string) :
  occurs old s = true ->
  exists pre post,
    s = (pre ++ old ++ post)%string /\
    replace_first old new s = (pre ++ new ++ post)%string.
Proof.
  induction s as [|c s IH]; cbn [occurs replace_first].
  - rewrite orb_false_r. intros H. rewrite H. exists "", "".
    destruct old; [|discriminate H]. cbn. now rewrite append_empty_r.
  - intros H. destruct (String.prefix old (String c s)) eqn:Ep.
    + exists "", (slice_from (String.length old) (String c s)).
      cbn [append]. split; auto. symmetry. now apply prefix_slice.
    + cbn [orb] in H. destruct (IH H) as (pre & post & Hs & Hr).
      exists (String c pre), post. cbn [append]. now rewrite Hr, <- Hs.
Qed.

Lemma occurs_count_from (old s : string) :
  occurs old s = true -> old <> "" -> 1 <= count_from old 0 s.
Proof.
  intros H Hne. induction s as [|c s IH]; cbn [occurs count_from] in *.
  - rewrite orb_false_r in H. destruct old; [contradiction | discriminate H].
  - destruct (String.prefix old (String c s)); [lia|]. cbn [orb] in H. auto.
Qed.

(** The two tests of [edit_real_file] agree: a text that passes the
    [in] test is counted at least once. *)
Lemma occurs_count (old s : string) : occurs old s = true -> 1 <= count old s.
Proof.
  intros H. unfold count. destruct (String.eqb_spec old ""); [lia|].
  now apply occurs_count_from.
Qed.

Lemma count_from_occurs (old s : string) (skip : nat) :
  1 <= count_from old skip s -> occurs old s = true.
Proof.
  revert skip. induction s as [|c s IH]; intros skip H;
    cbn [occurs count_from] in *; [lia|].
  destruct skip as [|k].
  - destruct (String.prefix old (String c s)); auto. rewrite (IH _ H).
    apply orb_true_r.
  - rewrite (IH _ H). apply orb_true_r.
Qed.

Lemma slice_from_S (n : nat) (c : ascii) (s : string) :
  slice_from (S n) (String c s) = slice_from n s.
Proof. reflexivity. Qed.

Lemma replace_from_same (old s : string) (skip : nat) :
  old <> "" -> replace_from old old skip s = slice_from skip s.
Proof.
  intros Hne. revert skip. induction s as [|c s IH]; intros skip;
    cbn [replace_from].
  - now destruct skip.
  - destruct skip as [|k]; [|apply IH].
    destruct (String.prefix old (String c s)) eqn:Ep.
    + rewrite IH. apply prefix_slice in Ep.
      destruct old as [|a old]; [contradiction|].
      cbn [String.length slice_from] in *.
      replace (S (String.length old) - 1) with (String.length old) by lia.
      exact Ep.
    + now rewrite IH.
Qed.

Lemma intersperse_empty (s : string) : intersperse "" s = s.
Proof. induction s as [|c s IH]; simpl; congruence. Qed.

(** Replacing a text by itself changes nothing, all occurrences or the
    first one. *)
Lemma replace_same (old s : string) :
  replace old old s = s /\ replace_first old old s = s.
Proof.
  split.
  - unfold replace. destruct (String.eqb_spec old "") as [->|Hne].
    + apply intersperse_empty.
    + now rewrite replace_from_same.
  - induction s as [|c s IH]; cbn [replace_first].
    + destruct (String.prefix old "") eqn:E; auto.
      destruct old; [reflexivity | discriminate E].
    + destruct (String.prefix old (String c s)) eqn:Ep.
      * now apply prefix_slice.
      * now rewrite IH.
Qed.




End PyStrFacts.

(* ================================================================= *)
(** ** The file tools *)

Section FileToolFacts.
Import PyStr FileTools.

Lemma resolve_path_spec (fs : FileSystem) (root file_path : string) :
  _resolve_path fs root file_path =
    if relative_to fs (resolve_path fs (full_path_of fs root file_path)) root
    then inr (full_path_of fs root file_path)
    else inl (mkExn ValueError ("Path " ++ file_path ++ " is outside project directory")).
Proof. reflexivity. Qed.

(** What a write of [edit_real_file] rests on. *)
Lemma edit_writes (fs : FileSystem) (root file_path old new : string)
    (replace_all : bool) (call : FsCall) :
  In call (snd (edit_real_file fs root file_path old new replace_all)) ->
  exists content,
    relative_to fs (resolve_path fs (full_path_of fs root file_path)) root = true /\
    path_exists fs (full_path_of fs root file_path) = true /\
    read_text fs (full_path_of fs root file_path) = inr content /\
    occurs old content = true /\
    (replace_all = false -> count old content <= 1) /\
    call = WriteText (full_path_of fs root file_path)
             (if replace_all then replace old new content
              else replace_first old new content).
Proof.
  unfold edit_real_file. rewrite resolve_path_spec.
  destruct (relative_to fs _ root) eqn:Er; [|intros []].
  destruct (path_exists fs _) eqn:Ee; simpl; [|intros []].
  destruct (read_text fs _) as [e|content] eqn:Et; [intros []|].
  destruct (occurs old content) eqn:Eo; simpl; [|intros []].
  destruct replace_all; simpl.
  - destruct (write_fails fs _ _); simpl; intros [<-|[]];
      exists content; repeat split; auto; discriminate.
  - destruct (Nat.ltb_spec 1 (count old content)) as [Hc|Hc]; simpl; [intros []|].
    destruct (write_fails fs _ _); simpl; intros [<-|[]];
      exists content; repeat split; auto.
Qed.


(** A path that resolves outside the project root is refused by all
    three tools with the same reason, and nothing is written. *)
Theorem outside_paths_are_refused (fs : FileSystem)
    (root file_path content old new : string) (replace_all : bool)
    (offset limit : Z) :
  relative_to fs (resolve_path fs (full_path_of fs root file_path)) root = false ->
  read_real_file fs root file_path offset limit
  = ("Error reading file: Path " ++ file_path ++ " is outside project directory")%string /\
  write_real_file fs root file_path content
  = (("Error writing file: Path " ++ file_path ++ " is outside project directory")%string,
     []) /\
  edit_real_file fs root file_path old new replace_all
  = (("Error editing file: Path " ++ file_path ++ " is outside project directory")%string,
     []).
Proof.
  intros H. unfold read_real_file, write_real_file, edit_real_file.
  rewrite resolve_path_spec, H. auto.
Qed.

Lemma outside_paths_are_refused_witness :
  read_real_file escaping "/books/novel" "../diary.md" 0 10
  = "Error reading file: Path ../diary.md is outside project directory" /\
  write_real_file escaping "/books/novel" "../diary.md" "x"
  = ("Error writing file: Path ../diary.md is outside project directory", []) /\
  edit_real_file escaping "/books/novel" "../diary.md" "a" "b" true
  = ("Error editing file: Path ../diary.md is outside project directory", []).
Proof.
  apply (outside_paths_are_refused escaping
           "/books/novel" "../diary.md" "x" "a" "b" true 0 10).
  reflexivity.
Defined.

End FileToolFacts.

Section EditFacts.
Import PyStr FileTools.

(** Without [replace_all], what [edit_real_file] writes is the text it
    read with one occurrence of [old_string] replaced by [new_string],
    and that occurrence is the only one counted. *)
Theorem edit_replaces_one_occurrence (fs : FileSystem)
    (root file_path old new path written : string) :
  In (WriteText path written) (snd (edit_real_file fs root file_path old new false)) ->
  exists content pre post,
    read_text fs path = inr content /\
    content = (pre ++ old ++ post)%string /\
    written = (pre ++ new ++ post)%string /\
    count old content = 1.
Proof.
  intros Hin.
  destruct (edit_writes _ _ _ _ _ _ _ Hin) as (c & _ & _ & Hr & Ho & Hc & Heq).
  injection Heq as -> ->.
  destruct (replace_first_spec old new c Ho) as (pre & post & Hs & Hw).
  exists c, pre, post. repeat split; auto.
  pose proof (occurs_count old c Ho). specialize (Hc eq_refl). lia.
Qed.

Lemma edit_replaces_one_occurrence_witness :
  exists content pre post,
    read_text (one_file three_lines "hello world") "/books/novel/notes.md"
    = inr content /\
    content = (pre ++ "world" ++ post)%string /\
    "hello there" = (pre ++ "there" ++ post)%string /\
    count "world" content = 1.
Proof.
  apply (edit_replaces_one_occurrence (one_file three_lines "hello world")
           "/books/novel" "notes.md" "world" "there").
  left. reflexivity.
Defined.

(** When the text of the file does not contain [old_string],
    [edit_real_file] says so and writes nothing. *)
Theorem edit_needs_an_occurrence (fs : FileSystem)
    (root file_path old new content : string) (replace_all : bool) :
  relative_to fs (resolve_path fs (full_path_of fs root file_path)) root = true ->
  path_exists fs (full_path_of fs root file_path) = true ->
  read_text fs (full_path_of fs root file_path) = inr content ->
  (forall pre post, content <> (pre ++ old ++ post)%string) ->
  edit_real_file fs root file_path old new replace_all
  = ("Error: String not found in file", []).
Proof.
  intros Hr He Ht Hno. unfold edit_real_file.
  rewrite resolve_path_spec, Hr, He, Ht. simpl.
  destruct (occurs old content) eqn:Eo; auto.
  apply occurs_iff in Eo. destruct Eo as (pre & post & Heq).
  now destruct (Hno pre post).
Qed.

Lemma edit_needs_an_occurrence_witness :
  edit_real_file (one_file three_lines "") "/books/novel" "notes.md"
    "world" "there" true
  = ("Error: String not found in file", []).
Proof.
  apply (edit_needs_an_occurrence (one_file three_lines "") "/books/novel"
           "notes.md" "world" "there" ""); try reflexivity.
  intros pre post H.
  destruct pre; simpl in H; discriminate.
Defined.



(** An edit whose [new_string] is its [old_string] writes the file back
    as it read it. *)
Theorem identity_edit_keeps_content (fs : FileSystem)
    (root file_path old path written : string) (replace_all : bool) :
  In (WriteText path written)
     (snd (edit_real_file fs root file_path old old replace_all)) ->
  read_text fs path = inr written.
Proof.
  intros Hin.
  destruct (edit_writes _ _ _ _ _ _ _ Hin) as (c & _ & _ & Hr & _ & _ & Heq).
  injection Heq as -> ->. destruct (replace_same old c) as [Ha Hf].
  destruct replace_all; now rewrite ?Ha, ?Hf.
Qed.

Lemma identity_edit_keeps_content_witness :
  read_text (one_file three_lines "hello world") "/books/novel/notes.md"
  = inr "hello world".
Proof.
  apply (identity_edit_keeps_content (one_file three_lines "hello world")
           "/books/novel" "notes.md" "o" "/books/novel/notes.md" "hello world" true).
  left. reflexivity.
Defined.

End EditFacts.

Section ReadFacts.
Import PyStr FileTools.

Lemma skipn_nth_error {A} (xs : list A) (n : nat) (x : A) :
  nth_error xs n = Some x -> skipn n xs = x :: skipn (S n) xs.
Proof.
  revert n. induction xs as [|y xs IH]; intros [|n] H; simpl in *;
    try discriminate.
  - now injection H as ->.
  - now apply IH.
Qed.

Lemma nth_error_in_range {A} (xs : list A) (n : nat) :
  n < List.length xs -> exists x, nth_error xs n = Some x.
Proof.
  intros H. destruct (nth_error xs n) eqn:E; eauto.
  apply nth_error_None in E. lia.
Qed.

(** Counting up from an index inside [-len, len) meets a line, then
    the window of the next index. *)
Lemma window_step (lines : list string) (a : Z) :
  (- Z.of_nat (List.length lines) <= a < Z.of_nat (List.length lines))%Z ->
  exists line,
    index lines a = Some line /\
    window lines a = line :: window lines (a + 1).
Proof.
  intros [Hlo Hhi]. unfold index, window.
  destruct (Z.leb_spec 0 a) as [Ha|Ha].
  - destruct (nth_error_in_range lines (Z.to_nat a)) as [x Hx]; [lia|].
    exists x. split; auto.
    destruct (Z.leb_spec 0 (a + 1)); [|lia].
    replace (Z.to_nat (a + 1)) with (S (Z.to_nat a)) by lia.
    now apply skipn_nth_error.
  - destruct (Z.leb_spec (- Z.of_nat (List.length lines)) a); [|lia].
    set (n := Z.to_nat (Z.of_nat (List.length lines) + a)).
    destruct (nth_error_in_range lines n) as [x Hx]; [subst n; lia|].
    exists x. split; auto. rewrite (skipn_nth_error _ _ _ Hx). cbn [app].
    destruct (Z.leb_spec 0 (a + 1)) as [Ha1|Ha1].
    + assert (a = (-1)%Z) by lia. subst a.
      replace (S n) with (List.length lines) by (subst n; lia).
      rewrite skipn_all. reflexivity.
    + replace (Z.to_nat (Z.of_nat (List.length lines) + (a + 1))) with (S n)
        by (subst n; lia).
      reflexivity.
Qed.

Lemma format_lines_window (lines : list string) (cnt : nat) (a : Z) :
  (- Z.of_nat (List.length lines) <= a)%Z ->
  (a + Z.of_nat cnt <= Z.of_nat (List.length lines))%Z ->
  format_lines lines (map (fun k => (a + Z.of_nat k)%Z) (seq 0 cnt))
  = Some (number_lines (a + 1) (firstn cnt (window lines a))).
Proof.
  revert a. induction cnt as [|cnt IH]; intros a Hlo Hhi; [reflexivity|].
  cbn [seq map format_lines]. rewrite Z.add_0_r.
  destruct (window_step lines a) as (line & Hi & Hw); [lia|].
  unfold format_line. rewrite Hi, Hw. cbn [firstn number_lines].
  rewrite <- seq_shift, map_map.
  rewrite (map_ext _ (fun k => (a + 1 + Z.of_nat k)%Z)) by (intros k; lia).
  rewrite IH by lia. reflexivity.
Qed.

(** What a read within the file returns: for a file with lines, an
    offset from [-len] up to [len - 1] and a limit that is not
    negative, the answer is the window of lines counted up from the
    offset, at most [limit] of them and never past the last line, each
    without its newline, cut after 2000 characters and numbered from
    [offset + 1].  A negative offset counts from the end of the file
    and numbers its lines from [offset + 1] all the same. *)
Theorem read_window (fs : FileSystem) (root file_path : string)
    (lines : list string) (offset limit : Z) :
  relative_to fs (resolve_path fs (full_path_of fs root file_path)) root = true ->
  path_exists fs (full_path_of fs root file_path) = true ->
  path_is_file fs (full_path_of fs root file_path) = true ->
  readlines fs (full_path_of fs root file_path) = inr lines ->
  (- Z.of_nat (List.length lines) <= offset < Z.of_nat (List.length lines))%Z ->
  (0 <= limit)%Z ->
  read_real_file fs root file_path offset limit
  = join_lines
      (number_lines (offset + 1)
         (firstn (Z.to_nat (Z.min limit (Z.of_nat (List.length lines) - offset)))
                 (window lines offset))).
Proof.
  intros Hr He Hf Hl [Hlo Hhi] Hlim. unfold read_real_file.
  rewrite resolve_path_spec, Hr, He, Hf, Hl. simpl.
  destruct lines as [|l0 ls] eqn:El; [simpl in *; lia|]. rewrite <- El in *.
  destruct (Z.leb_spec (Z.of_nat (List.length lines)) offset); [lia|].
  unfold range.
  replace (Z.to_nat (Z.min (offset + limit) (Z.of_nat (List.length lines)) - offset))
    with (Z.to_nat (Z.min limit (Z.of_nat (List.length lines) - offset))) by lia.
  rewrite format_lines_window by lia. reflexivity.
Qed.

Lemma read_window_witness :
  read_real_file (one_file three_lines "") "/books/novel" "notes.md" (-1) 5
  = join_lines
      (number_lines 0
         (firstn 4 (window three_lines (-1)))).
Proof.
  apply (read_window (one_file three_lines "") "/books/novel" "notes.md"
           three_lines (-1) 5); try reflexivity; simpl; lia.
Defined.



End ReadFacts.

(* ================================================================= *)
(** ** The endpoint and the answer without streaming *)

Section OtherEntryPoints.
Import Differencer Differencer_facts Client FileTools.

(** [/api/project] never answers 404 or 400: the two checked failures
    are raised inside the [try] block and leave it as status 500.  It
    succeeds, with the path as [pathlib] prints it, exactly when the
    path exists and is a directory. *)
Theorem set_project_statuses (fs : FileSystem) (str_http : nat -> string -> string)
    (request_project_path : string) :
  match Rest.set_project fs str_http request_project_path with
  | inr answer =>
      answer = as_path fs request_project_path /\
      path_exists fs answer = true /\ path_is_dir fs answer = true
  | inl e =>
      Rest.status_code e = 500 /\
      ((path_exists fs (as_path fs request_project_path) = false /\
        Rest.detail e = str_http 404 "Project path not found") \/
       (path_exists fs (as_path fs request_project_path) = true /\
        path_is_dir fs (as_path fs request_project_path) = false /\
        Rest.detail e = str_http 400 "Project path must be a directory"))
  end.
Proof.
  unfold Rest.set_project.
  destruct (path_exists fs (as_path fs request_project_path)) eqn:Ee; simpl.
  - destruct (path_is_dir fs (as_path fs request_project_path)) eqn:Ed; simpl; auto.
  - auto.
Qed.

Lemma final_files_one (c : Chunk) :
  final_files [] [c] = keys (get (files c) []).
Proof. simpl. now destruct (files c). Qed.

(** [invoke] and a one-snapshot turn agree.  When the state the agent
    returns ends with an assistant message with text, [invoke] succeeds
    with that text, the [todos] of the state and the names of its files;
    a turn whose only snapshot is that state closes with [complete]
    carrying the same text, and leaves a client with the same todos and
    the same file names. *)
Theorem invoke_matches_one_snapshot_turn
    (ainvoke : Agent -> string -> option string -> Exn + Chunk)
    (self : AgentService) (a : Agent) (user_message : string)
    (thread_id : option string) (c : Chunk) (msgs : list Message)
    (s : string) (calls : list ToolCall) :
  agent self = Some a ->
  (forall config, ainvoke a user_message config = inr c) ->
  messages c = Some msgs ->
  last_item msgs = Some (AIMessage (Text s) calls) ->
  Invoke.invoke ainvoke self user_message thread_id
  = inr (Invoke.Succeeded (Text s) (get (todos c) []) (keys (get (files c) []))) /\
  (exists body,
     stream_events (mkSource [c] None)
     = body ++ [Complete "Agent finished processing" s]) /\
  client_todos [] (stream_events (mkSource [c] None)) = get (todos c) [] /\
  client_files [] (stream_events (mkSource [c] None)) = keys (get (files c) []).
Proof.
  intros Ha Hinv Hm Hl.
  assert (Hlast : Forall has_last [c]).
  { constructor; [|constructor]. unfold has_last. rewrite Hm.
    intros ->. discriminate. }
  repeat split.
  - unfold Invoke.invoke. rewrite Ha, Hinv. unfold Invoke.summarize.
    now rewrite Hm, Hl.
  - destruct (state_after_total [c] initial Hlast) as [st' Hs].
    unfold stream_events. cbn [snapshots failure].
    rewrite (drive_all _ _ _ _ Hs), (state_after_content _ _ _ Hs).
    cbn [final_content]. unfold chunk_content. rewrite Hm, Hl. eauto.
  - exact (proj1 (drive_client [c] initial None Hlast)).
  - rewrite <- final_files_one.
    exact (proj2 (drive_client [c] initial None Hlast)).
Qed.

Lemma invoke_matches_one_snapshot_turn_witness :
  Invoke.invoke (fun _ _ _ => inr Invoke.final_state) Scenarios.novel_service
    "Finish the outline" None
  = inr (Invoke.Succeeded (Text "Done.") [mkToDo "outline" "completed"]
           ["a.md"; "b.md"]) /\
  (exists body,
     stream_events (mkSource [Invoke.final_state] None)
     = body ++ [Complete "Agent finished processing" "Done."]) /\
  client_todos [] (stream_events (mkSource [Invoke.final_state] None))
  = [mkToDo "outline" "completed"] /\
  client_files [] (stream_events (mkSource [Invoke.final_state] None))
  = ["a.md"; "b.md"].
Proof.
  apply (invoke_matches_one_snapshot_turn (fun _ _ _ => inr Invoke.final_state)
           Scenarios.novel_service Scenarios.novel_agent "Finish the outline" None
           Invoke.final_state
           [Scenarios.human; AIMessage (Text "Done.") []] "Done." []);
    reflexivity.
Defined.

(** Where the two part ways: a state whose message list is empty, or
    ends with something else than an assistant message.  [invoke]
    succeeds with the empty text, or with the content of that last
    message whatever its class; a turn on the same state ends in
    [error] for the empty list, and streams nothing of the last message
    otherwise. *)
Theorem invoke_reads_any_last_message (c : Chunk) (msgs : list Message) :
  messages c = Some msgs ->
  (msgs = [] ->
   Invoke.summarize (inr c)
   = Invoke.Succeeded (Text "") (get (todos c) []) (keys (get (files c) [])) /\
   stream_events (mkSource [c] None) = [Error "list index out of range"]) /\
  (forall m, last_item msgs = Some m ->
   (forall content calls, m <> AIMessage content calls) ->
   Invoke.summarize (inr c)
   = Invoke.Succeeded (Invoke.message_content m) (get (todos c) [])
       (keys (get (files c) [])) /\
   stream_chunks (stream_events (mkSource [c] None)) = [] /\
   exists body, stream_events (mkSource [c] None)
                = body ++ [Complete "Agent finished processing" ""]).
Proof.
  intros Hm. split.
  - intros ->. unfold Invoke.summarize, stream_events. rewrite Hm. split; auto.
    cbn [snapshots failure drive]. unfold process_chunk, messages_step.
    now rewrite Hm.
  - intros m Hl Hna.
    assert (Hlast : Forall has_last [c]).
    { constructor; [|constructor]. unfold has_last. rewrite Hm.
      intros ->. discriminate. }
    assert (Hc : chunk_content c = None).
    { unfold chunk_content. rewrite Hm, Hl.
      destruct m as [content calls| |]; auto. now destruct (Hna content calls). }
    split; [|split].
    + unfold Invoke.summarize. now rewrite Hm, Hl.
    + unfold stream_events. cbn [snapshots failure drive].
      destruct (process_chunk_total initial c) as (evs & st' & E);
        [now inversion Hlast|].
      rewrite E, stream_chunks_app. apply process_chunk_chunks in E.
      rewrite Hc in E. destruct E as [_ ->]. reflexivity.
    + destruct (state_after_total [c] initial Hlast) as [st' Hs].
      unfold stream_events. cbn [snapshots failure].
      rewrite (drive_all _ _ _ _ Hs), (state_after_content _ _ _ Hs).
      cbn [final_content]. rewrite Hc. eauto.
Qed.

Lemma invoke_reads_any_last_message_witness :
  Invoke.summarize (inr (mkChunk (Some []) None None))
  = Invoke.Succeeded (Text "") [] [] /\
  stream_events (mkSource [mkChunk (Some []) None None] None)
  = [Error "list index out of range"].
Proof.
  apply (invoke_reads_any_last_message (mkChunk (Some []) None None) []);
    reflexivity.
Defined.

End OtherEntryPoints.
